(** * Machine dashboard: normalisation, aggregation, filtering and refresh

    A shallow embedding of [src/pages/MachineStatus.tsx]: the functions
    [transformMachineData], [buildSummary] and [fetchMachineData], the derived
    values [filteredData], [shifts], [designs] and [availableDevices], and the
    component's event handlers and effects.

    The component works on values of type [any], so the model starts from a
    small account of JavaScript values and of the operators the source applies
    to them. *)

From Stdlib Require Import QArith Qcanon Qpower SpecFloat.
From stdpp Require Import gmap strings list fin_maps.

Local Open Scope string_scope.
Local Open Scope list_scope.

(** ** JavaScript values *)

(** A JavaScript number is an IEEE double (binary64): [NaN], an infinity,
    zero, or [Finite negative m e], which is [m * 2^e] with the sign, where
    [m] and [e] are the mantissa and exponent of the double.  The sign of
    zero is not kept, JSON's [-0] reads as [0]: the source never divides by a
    value of a record, and [||], [===], [Set] and [+] do not tell the two
    zeros apart. *)
Inductive JSNumber : Type :=
  | NaN
  | Infinity (negative : bool)
  | Zero
  | Finite (negative : bool) (m : positive) (e : Z).

(** The arithmetic is that of the Standard Library's specification of IEEE
    floats, at precision 53 and maximal exponent 1024: every operation rounds
    to the nearest double, ties to the even mantissa, and overflows to an
    infinity. *)
Definition to_spec (n : JSNumber) : spec_float :=
  match n with
  | NaN => S754_nan
  | Infinity negative => S754_infinity negative
  | Zero => S754_zero false
  | Finite negative m e => S754_finite negative m e
  end.

Definition of_spec (x : spec_float) : JSNumber :=
  match x with
  | S754_nan => NaN
  | S754_infinity negative => Infinity negative
  | S754_zero _ => Zero
  | S754_finite negative m e => Finite negative m e
  end.

(** [Finite negative m e] is a double when [m] and [e] are the mantissa and
    exponent of one: [m] has 53 bits and [e] is between -1074 and 971, or [m]
    has fewer bits and [e] is -1074. *)
Definition is_double (n : JSNumber) : bool := valid_binary 53 1024 (to_spec n).

(** The double nearest to an integer. *)
Definition of_Z (z : Z) : JSNumber :=
  of_spec (binary_normalize 53 1024 z 0 false).

(** [a + b] and [a / b] on numbers *)
Definition num_add (a b : JSNumber) : JSNumber :=
  of_spec (SFadd 53 1024 (to_spec a) (to_spec b)).

Definition num_div (a b : JSNumber) : JSNumber :=
  of_spec (SFdiv 53 1024 (to_spec a) (to_spec b)).

(** The values a parsed JSON payload holds, together with [undefined] (what
    reading an absent property gives).  An object or an array is kept as its
    reference: the source never reads inside one, and both [===] and the
    membership test of [Set] compare references. *)
Inductive JSValue : Type :=
  | JUndefined
  | JNull
  | JBool (b : bool)
  | JNumber (n : JSNumber)
  | JString (s : string)
  | JObject (ref : positive).

#[global] Instance JSNumber_eq_dec : EqDecision JSNumber.
Proof. solve_decision. Defined.

#[global] Instance JSValue_eq_dec : EqDecision JSValue.
Proof. solve_decision. Defined.

Definition num (z : Z) : JSValue := JNumber (of_Z z).

(** [ToBoolean]: [undefined], [null], [false], [0], [NaN] and the empty string
    are falsy, everything else is truthy. *)
Definition truthy (v : JSValue) : bool :=
  match v with
  | JUndefined | JNull => false
  | JBool b => b
  | JNumber NaN | JNumber Zero => false
  | JNumber _ => true
  | JString s => bool_decide (s ≠ "")
  | JObject _ => true
  end.

(** [a || b] *)
Definition js_or (a b : JSValue) : JSValue := if truthy a then a else b.

Definition nullish (v : JSValue) : bool :=
  match v with
  | JUndefined | JNull => true
  | _ => false
  end.

(** [a ?? b] *)
Definition js_coalesce (a b : JSValue) : JSValue := if nullish a then b else a.

(** [v === s] for a string [s]: strict equality never converts. *)
Definition strict_eq_string (v : JSValue) (s : string) : bool :=
  bool_decide (v = JString s).

(** What the engine and its locale decide: how a [Date] is built from a value
    and rendered, how a number prints, how a string reads as a number, and the
    string an object or array of the payload converts to. *)
Class Host : Type := {
  Date : Type;
  new_Date : JSValue → Date;
  toLocaleString : Date → string;
  number_toString : JSNumber → string;
  string_toNumber : string → JSNumber;
  object_toString : positive → string;
}.

Section Operators.
Context `{Host}.

Definition ToPrimitive (v : JSValue) : JSValue :=
  match v with
  | JObject r => JString (object_toString r)
  | _ => v
  end.

Definition ToString (v : JSValue) : string :=
  match v with
  | JUndefined => "undefined"
  | JNull => "null"
  | JBool true => "true"
  | JBool false => "false"
  | JNumber NaN => "NaN"
  | JNumber (Infinity false) => "Infinity"
  | JNumber (Infinity true) => "-Infinity"
  | JNumber Zero => "0"
  | JNumber n => number_toString n
  | JString s => s
  | JObject r => object_toString r
  end.

Definition ToNumber (v : JSValue) : JSNumber :=
  match v with
  | JUndefined => NaN
  | JNull => Zero
  | JBool true => of_Z 1
  | JBool false => Zero
  | JNumber n => n
  | JString s => string_toNumber s
  | JObject r => string_toNumber (object_toString r)
  end.

(** [n / len] for the length of an array (below [2^32], so [len] is a double
    as it stands) *)
Definition num_div_length (n : JSNumber) (len : nat) : JSNumber :=
  num_div n (of_Z (Z.of_nat len)).

(** [n || 0] on a number *)
Definition num_or_zero (n : JSNumber) : JSNumber :=
  if truthy (JNumber n) then n else Zero.

(** [a + b]: concatenation as soon as one side is a string after
    [ToPrimitive], numeric addition otherwise. *)
Definition js_plus (a b : JSValue) : JSValue :=
  match ToPrimitive a, ToPrimitive b with
  | JString s, pb => JString (s +:+ ToString pb)
  | pa, JString s => JString (ToString pa +:+ s)
  | pa, pb => JNumber (num_add (ToNumber pa) (ToNumber pb))
  end.
End Operators.

(** [Array.from(new Set(xs))]: the distinct values in the order of their first
    occurrence. *)
Definition distinct (xs : list JSValue) : list JSValue :=
  fold_left (λ seen x, if decide (x ∈ seen) then seen else seen ++ [x]) xs [].

(** ** Records *)

(** A row of the payload: a JSON object, read by property name. *)
Abbreviation RawObject := (gmap string JSValue).

(** [item.key]: [undefined] when the property is absent. *)
Definition prop (item : RawObject) (key : string) : JSValue :=
  default JUndefined (item !! key).

(** The object [transformMachineData] builds for a row. *)
Record MachineRecord : Type := {
  deviceId : JSValue;
  timestamp : JSValue;
  shift : JSValue;
  design : JSValue;
  count : JSValue;
  efficiency : JSValue;
  error1 : JSValue;
  error2 : JSValue;
  status : JSValue;
}.

(** A [MachineRecord] seen as an object again, with its own property names. *)
Definition to_object (r : MachineRecord) : RawObject :=
  list_to_map
    [("deviceId", deviceId r); ("timestamp", timestamp r);
     ("shift", shift r); ("design", design r); ("count", count r);
     ("efficiency", efficiency r); ("error1", error1 r);
     ("error2", error2 r); ("status", status r)].

(** ** Exceptions *)

Inductive Thrown : Type :=
  | NetworkError
  | SyntaxError
  | TypeError
  | Error (message : JSValue).

Inductive Completion (A : Type) : Type :=
  | Normal (a : A)
  | Throw (e : Thrown).
Arguments Normal {A} a.
Arguments Throw {A} e.

#[global] Instance Completion_ret : MRet Completion := @Normal.

#[global] Instance Completion_bind : MBind Completion := λ A B k c,
  match c with
  | Normal a => k a
  | Throw e => Throw e
  end.

(** ** Normalizer: [transformMachineData] *)

Section Normalizer.
Context `{Host}.

(** The callback of [rows.map], for a row that is an object.  [now] is what
    [new Date()] gives; the handler runs to completion in one turn of the
    event loop, and one reading serves all its calls of [new Date()]. *)
Definition transformRow (now : Date) (item : RawObject) : MachineRecord :=
  let ts := if truthy (prop item "timestamp")
            then new_Date (prop item "timestamp") else now in
  {| deviceId := js_or (prop item "device_id") (JString "Unknown");
     timestamp := JString (toLocaleString ts);
     shift := js_or (prop item "shift") (JString "-");
     design := js_or (prop item "design") (JString "-");
     count := js_coalesce (prop item "count") (num 0);
     efficiency := js_coalesce (prop item "efficiency") (num 0);
     error1 := js_coalesce (prop item "error1") (num 0);
     error2 := js_coalesce (prop item "error2") (num 0);
     status := js_or (prop item "status") (JString "unknown") |}.

(** An element of the array is an object or [null] ([None]); reading a
    property of [null] throws a [TypeError].  A primitive element reads like
    an object without properties. *)
Definition transformItem (now : Date) (item : option RawObject)
  : Completion MachineRecord :=
  match item with
  | Some o => Normal (transformRow now o)
  | None => Throw TypeError
  end.

Fixpoint transformMachineData (now : Date) (rows : list (option RawObject))
  : Completion (list MachineRecord) :=
  match rows with
  | [] => Normal []
  | item :: rest =>
      r ← transformItem now item;
      rs ← transformMachineData now rest;
      mret (r :: rs)
  end.
End Normalizer.

(** ** Aggregator: [buildSummary] *)

Record StatusSummary : Type := {
  total_machines : nat;
  running : nat;
  idle : nat;
  stopped : nat;
  maintenance : nat;
}.

Record SummaryStats : Type := {
  total_production : JSValue;
  avg_efficiency : JSNumber;
  total_errors : JSValue;
  error1_count : JSValue;
  error2_count : JSValue;
  status_summary : StatusSummary;
  designs : list JSValue;
}.

(** [data.filter((d) => d.status === tag).length] *)
Definition status_count (tag : string) (data : list MachineRecord) : nat :=
  length (List.filter (λ d, strict_eq_string (status d) tag) data).

Section Aggregator.
Context `{Host}.

Definition buildSummary (data : list MachineRecord) : SummaryStats :=
  let total_production :=
    fold_left (λ sum d, js_plus sum (js_or (count d) (num 0))) data (num 0) in
  let avg_efficiency :=
    if decide (length data = 0) then Zero
    else num_div_length
           (fold_left
              (λ sum d, num_add sum (num_or_zero (ToNumber (efficiency d))))
              data Zero)
           (length data) in
  let total_errors :=
    fold_left
      (λ sum d, js_plus (js_plus sum (js_or (error1 d) (num 0)))
                        (js_or (error2 d) (num 0)))
      data (num 0) in
  let error1_count :=
    fold_left (λ sum d, js_plus sum (js_or (error1 d) (num 0))) data (num 0) in
  let error2_count :=
    fold_left (λ sum d, js_plus sum (js_or (error2 d) (num 0))) data (num 0) in
  let running_count := status_count "running" data in
  let idle_count := status_count "idle" data in
  let stopped_count := status_count "stopped" data in
  let maintenance_count := status_count "maintenance" data in
  let designs := distinct (map design data) in
  {| total_production := total_production;
     avg_efficiency := avg_efficiency;
     total_errors := total_errors;
     error1_count := error1_count;
     error2_count := error2_count;
     status_summary :=
       {| total_machines := length data;
          running := running_count;
          idle := idle_count;
          stopped := stopped_count;
          maintenance := maintenance_count |};
     designs := designs |}.
End Aggregator.

(** ** The component: state, derived values, handlers and effects *)

Record Toast : Type := {
  title : string;
  description : string;
  toast_status : string;
  duration : nat;
  isClosable : bool;
}.

(** What the response of [fetch(url)] turns out to be.  [response.json()]
    either fails or gives [null] or a value whose [success], [data] and
    [message] are read; [data] is [Some rows] when [Array.isArray] holds of it.
    A result that is a primitive or an array reads as
    [ResultObject JUndefined None JUndefined]. *)
Inductive Result : Type :=
  | ResultNull
  | ResultObject (success : JSValue) (data : option (list (option RawObject)))
                 (message : JSValue).

Inductive Response : Type :=
  | Rejected
  | Responded (ok : bool) (json : option Result).

Section Component.
Context `{Host}.

(** The [useState] cells. *)
Record State : Type := {
  machineData : list MachineRecord;
  isLoading : bool;
  selectedMachine : string;
  selectedShift : string;
  selectedDesign : string;
  selectedStatus : string;
  lastUpdated : Date;
  autoRefresh : bool;
  refreshInterval : nat;
  apiSummaryData : option SummaryStats;
}.

(** The component between two events: its state, the requests whose
    response is awaited (the [deviceId] each was issued for, oldest first),
    the armed [setInterval] (its period in milliseconds and the
    [selectedMachine] its callback closed over), and what was shown and
    logged. *)
Record Session : Type := {
  state : State;
  inflight : list string;
  interval : option (nat * string);
  toasts : list Toast;
  console : list Thrown;
}.

Definition with_state (f : State → State) (s : Session) : Session :=
  {| state := f (state s); inflight := inflight s; interval := interval s;
     toasts := toasts s; console := console s |}.

Definition setMachineData (v : list MachineRecord) (st : State) : State :=
  {| machineData := v; isLoading := isLoading st;
     selectedMachine := selectedMachine st; selectedShift := selectedShift st;
     selectedDesign := selectedDesign st; selectedStatus := selectedStatus st;
     lastUpdated := lastUpdated st; autoRefresh := autoRefresh st;
     refreshInterval := refreshInterval st;
     apiSummaryData := apiSummaryData st |}.

Definition setIsLoading (v : bool) (st : State) : State :=
  {| machineData := machineData st; isLoading := v;
     selectedMachine := selectedMachine st; selectedShift := selectedShift st;
     selectedDesign := selectedDesign st; selectedStatus := selectedStatus st;
     lastUpdated := lastUpdated st; autoRefresh := autoRefresh st;
     refreshInterval := refreshInterval st;
     apiSummaryData := apiSummaryData st |}.

Definition setSelectedMachine (v : string) (st : State) : State :=
  {| machineData := machineData st; isLoading := isLoading st;
     selectedMachine := v; selectedShift := selectedShift st;
     selectedDesign := selectedDesign st; selectedStatus := selectedStatus st;
     lastUpdated := lastUpdated st; autoRefresh := autoRefresh st;
     refreshInterval := refreshInterval st;
     apiSummaryData := apiSummaryData st |}.

Definition setSelectedShift (v : string) (st : State) : State :=
  {| machineData := machineData st; isLoading := isLoading st;
     selectedMachine := selectedMachine st; selectedShift := v;
     selectedDesign := selectedDesign st; selectedStatus := selectedStatus st;
     lastUpdated := lastUpdated st; autoRefresh := autoRefresh st;
     refreshInterval := refreshInterval st;
     apiSummaryData := apiSummaryData st |}.

Definition setSelectedDesign (v : string) (st : State) : State :=
  {| machineData := machineData st; isLoading := isLoading st;
     selectedMachine := selectedMachine st; selectedShift := selectedShift st;
     selectedDesign := v; selectedStatus := selectedStatus st;
     lastUpdated := lastUpdated st; autoRefresh := autoRefresh st;
     refreshInterval := refreshInterval st;
     apiSummaryData := apiSummaryData st |}.

Definition setSelectedStatus (v : string) (st : State) : State :=
  {| machineData := machineData st; isLoading := isLoading st;
     selectedMachine := selectedMachine st; selectedShift := selectedShift st;
     selectedDesign := selectedDesign st; selectedStatus := v;
     lastUpdated := lastUpdated st; autoRefresh := autoRefresh st;
     refreshInterval := refreshInterval st;
     apiSummaryData := apiSummaryData st |}.

Definition setLastUpdated (v : Date) (st : State) : State :=
  {| machineData := machineData st; isLoading := isLoading st;
     selectedMachine := selectedMachine st; selectedShift := selectedShift st;
     selectedDesign := selectedDesign st; selectedStatus := selectedStatus st;
     lastUpdated := v; autoRefresh := autoRefresh st;
     refreshInterval := refreshInterval st;
     apiSummaryData := apiSummaryData st |}.

Definition setAutoRefresh (v : bool) (st : State) : State :=
  {| machineData := machineData st; isLoading := isLoading st;
     selectedMachine := selectedMachine st; selectedShift := selectedShift st;
     selectedDesign := selectedDesign st; selectedStatus := selectedStatus st;
     lastUpdated := lastUpdated st; autoRefresh := v;
     refreshInterval := refreshInterval st;
     apiSummaryData := apiSummaryData st |}.

Definition setRefreshInterval (v : nat) (st : State) : State :=
  {| machineData := machineData st; isLoading := isLoading st;
     selectedMachine := selectedMachine st; selectedShift := selectedShift st;
     selectedDesign := selectedDesign st; selectedStatus := selectedStatus st;
     lastUpdated := lastUpdated st; autoRefresh := autoRefresh st;
     refreshInterval := v;
     apiSummaryData := apiSummaryData st |}.

Definition setApiSummaryData (v : option SummaryStats) (st : State) : State :=
  {| machineData := machineData st; isLoading := isLoading st;
     selectedMachine := selectedMachine st; selectedShift := selectedShift st;
     selectedDesign := selectedDesign st; selectedStatus := selectedStatus st;
     lastUpdated := lastUpdated st; autoRefresh := autoRefresh st;
     refreshInterval := refreshInterval st;
     apiSummaryData := v |}.

Definition set_inflight (v : list string) (s : Session) : Session :=
  {| state := state s; inflight := v; interval := interval s;
     toasts := toasts s; console := console s |}.

Definition set_interval (v : option (nat * string)) (s : Session) : Session :=
  {| state := state s; inflight := inflight s; interval := v;
     toasts := toasts s; console := console s |}.

Definition toast (t : Toast) (s : Session) : Session :=
  {| state := state s; inflight := inflight s; interval := interval s;
     toasts := toasts s ++ [t]; console := console s |}.

Definition console_error (e : Thrown) (s : Session) : Session :=
  {| state := state s; inflight := inflight s; interval := interval s;
     toasts := toasts s; console := console s ++ [e] |}.

(** *** Derived values, recomputed on every render *)

(** The callback of [machineData.filter] in [filteredData]. *)
Definition passes (st : State) (item : MachineRecord) : bool :=
  if bool_decide (selectedMachine st ≠ "all")
     && negb (strict_eq_string (deviceId item) (selectedMachine st))
  then false
  else if bool_decide (selectedShift st ≠ "all")
          && negb (strict_eq_string (shift item) (selectedShift st))
  then false
  else if bool_decide (selectedDesign st ≠ "all")
          && negb (strict_eq_string (design item) (selectedDesign st))
  then false
  else if bool_decide (selectedStatus st ≠ "all")
          && negb (strict_eq_string (status item) (selectedStatus st))
  then false
  else true.

Definition filteredData (st : State) : list MachineRecord :=
  List.filter (passes st) (machineData st).

Definition shifts (st : State) : list JSValue :=
  distinct (map shift (machineData st)).

(** The component's [designs]: [apiSummaryData?.designs || ...]; an array,
    even an empty one, is truthy. *)
Definition designs_facet (st : State) : list JSValue :=
  match apiSummaryData st with
  | Some summary => designs summary
  | None => distinct (map design (machineData st))
  end.

Definition availableDevices (st : State) : list JSValue :=
  distinct (map deviceId (machineData st)).

(** *** [fetchMachineData] *)

(** Up to [await fetch(url)]: the request leaves, scoped to [deviceId]
    unless it is ["all"]. *)
Definition fetchMachineData_begin (deviceId : string) (s : Session) : Session :=
  set_inflight (inflight s ++ [deviceId]) (with_state (setIsLoading true) s).

(** From the response to the array handed to [transformMachineData]. *)
Definition read_response (resp : Response)
  : Completion (list (option RawObject)) :=
  match resp with
  | Rejected => Throw NetworkError
  | Responded ok json =>
      if negb ok then Throw (Error (JString "Failed to fetch machine data"))
      else
        match json with
        | None => Throw SyntaxError
        | Some ResultNull => Throw TypeError
        | Some (ResultObject success data message) =>
            match data with
            | Some rows =>
                if negb (truthy success)
                then Throw (Error (js_or message
                       (JString "Unexpected response from Machine API")))
                else Normal rows
            | None =>
                Throw (Error (js_or message
                  (JString "Unexpected response from Machine API")))
            end
        end
  end.

(** The [try] block after the response arrived. *)
Definition try_block (now : Date) (resp : Response) (s : Session)
  : Completion Session :=
  rows ← read_response resp;
  transformedData ← transformMachineData now rows;
  mret (with_state
          (λ st, setLastUpdated now
                   (setApiSummaryData (Some (buildSummary transformedData))
                      (setMachineData transformedData st))) s).

Definition catch_block (error : Thrown) (s : Session) : Completion Session :=
  mret (toast {| title := "Error";
                 description := "Failed to fetch machine data.";
                 toast_status := "warning";
                 duration := 3000;
                 isClosable := true |}
          (console_error error s)).

Definition finally_block (s : Session) : Session :=
  with_state (setIsLoading false) s.

(** The rest of [fetchMachineData] once the response is there. *)
Definition fetchMachineData_settle (now : Date) (resp : Response) (s : Session)
  : Completion Session :=
  s' ← match try_block now resp s with
       | Normal s' => Normal s'
       | Throw error => catch_block error s
       end;
  mret (finally_block s').

(** *** Effects *)

(** [useEffect(..., [selectedMachine, fetchMachineData])] *)
Definition effect_load (s : Session) : Session :=
  fetchMachineData_begin (selectedMachine (state s)) s.

(** [useEffect(..., [autoRefresh, refreshInterval, selectedMachine,
    fetchMachineData])]: the cleanup of the previous run clears its
    interval, then a new one is armed when [autoRefresh] is on. *)
Definition effect_autoRefresh (s : Session) : Session :=
  let cleared := set_interval None s in
  if autoRefresh (state s)
  then set_interval
         (Some (refreshInterval (state s) * 1000, selectedMachine (state s)))
         cleared
  else cleared.

(** *** Events *)

Inductive Event : Type :=
  | SelectMachine (value : string)
  | SelectShift (value : string)
  | SelectDesign (value : string)
  | SelectStatus (value : string)
  | ToggleAutoRefresh
  | SelectInterval (seconds : nat)
  | RefreshNow (now : Date)
  | Tick (now : Date)
  | Settle (i : nat) (resp : Response) (now : Date).

(** The first render and its effects. *)
Definition mount (now : Date) : Session :=
  effect_autoRefresh
    (effect_load
       {| state := {| machineData := []; isLoading := false;
                      selectedMachine := "all"; selectedShift := "all";
                      selectedDesign := "all"; selectedStatus := "all";
                      lastUpdated := now; autoRefresh := false;
                      refreshInterval := 30; apiSummaryData := None |};
          inflight := []; interval := None; toasts := []; console := [] |}).

(** One event handled to completion, with the effects whose dependencies
    changed.  [fetchMachineData] is taken to be the same function on every
    render ([toast] and [machineApiUrl] do not change). *)
Definition step (s : Session) (ev : Event) : Session :=
  match ev with
  | SelectMachine value =>
      if decide (value = selectedMachine (state s)) then s
      else effect_autoRefresh
             (effect_load (with_state (setSelectedMachine value) s))
  | SelectShift value => with_state (setSelectedShift value) s
  | SelectDesign value => with_state (setSelectedDesign value) s
  | SelectStatus value => with_state (setSelectedStatus value) s
  | ToggleAutoRefresh =>
      effect_autoRefresh
        (with_state (setAutoRefresh (negb (autoRefresh (state s)))) s)
  | SelectInterval seconds =>
      if decide (seconds = refreshInterval (state s)) then s
      else effect_autoRefresh (with_state (setRefreshInterval seconds) s)
  | RefreshNow now =>
      with_state (setLastUpdated now)
        (fetchMachineData_begin (selectedMachine (state s)) s)
  | Tick now =>
      match interval s with
      | Some (_, captured) =>
          with_state (setLastUpdated now) (fetchMachineData_begin captured s)
      | None => s
      end
  | Settle i resp now =>
      match inflight s !! i with
      | Some _ =>
          match fetchMachineData_settle now resp
                  (set_inflight (delete i (inflight s)) s) with
          | Normal s' => s'
          | Throw _ => set_inflight (delete i (inflight s)) s
          end
      | None => s
      end
  end.

Definition run (s : Session) (evs : list Event) : Session :=
  fold_left step evs s.
End Component.

(** ** Vocabulary of the properties *)

(** The closed set of status tags. *)
Definition StatusTag : list string :=
  ["running"; "idle"; "stopped"; "maintenance"; "unknown"].

Definition is_StatusTag (v : JSValue) : bool :=
  match v with
  | JString s => bool_decide (s ∈ StatusTag)
  | _ => false
  end.

(** [typeof v === "number"] *)
Definition is_number (v : JSValue) : bool :=
  match v with
  | JNumber _ => true
  | _ => false
  end.

(** A number other than [NaN] (which [|| 0] would replace), and the number
    a value is. *)
Definition not_NaN (v : JSValue) : bool :=
  match v with
  | JNumber NaN => false
  | JNumber _ => true
  | _ => false
  end.

Definition number_of (v : JSValue) : JSNumber :=
  match v with
  | JNumber n => n
  | _ => NaN
  end.

(** A record whose four numeric fields hold numbers, as [MachineRecord]
    declares them. *)
Definition numeric (d : MachineRecord) : Prop :=
  not_NaN (count d) = true ∧ not_NaN (efficiency d) = true ∧
  not_NaN (error1 d) = true ∧ not_NaN (error2 d) = true.

(** Numbers added one after another, from [0], each addition rounding to a
    double: [((0 + x1) + x2) + ...]. *)
Definition added (xs : list JSNumber) : JSNumber := fold_left num_add xs Zero.

(** The rational a number is, if it is finite. *)
Definition real (n : JSNumber) : option Qc :=
  match n with
  | Zero => Some 0%Qc
  | Finite negative m e =>
      Some (Q2Qc ((if negative then -1 else 1) * inject_Z (Zpos m) * 2 ^ e)%Q)
  | _ => None
  end.

(** The sum of numbers as rationals, without rounding. *)
Fixpoint exact_sum (xs : list JSNumber) : option Qc :=
  match xs with
  | [] => Some 0%Qc
  | x :: rest =>
      match real x, exact_sum rest with
      | Some a, Some b => Some (a + b)%Qc
      | _, _ => None
      end
  end.

(** [a + b] gives the exact sum of two finite numbers: it does not round. *)
Definition adds_exactly (a b : JSNumber) : bool :=
  match real a, real b, real (num_add a b) with
  | Some x, Some y, Some z => bool_decide (z = (x + y)%Qc)
  | _, _, _ => false
  end.

(** No addition rounds while the numbers are added one after another. *)
Fixpoint never_rounds (sum : JSNumber) (xs : list JSNumber) : bool :=
  match xs with
  | [] => true
  | x :: rest => adds_exactly sum x && never_rounds (num_add sum x) rest
  end.

(** The sum of integers. *)
Definition sum_Z (zs : list Z) : Z := foldr Z.add 0%Z zs.

(** The state of a right shift that has lost no bit. *)
Definition exact_record (p : positive) : shr_record :=
  {| shr_m := Zpos p; shr_r := false; shr_s := false |}.

(** A double that holds the positive integer [p] with its mantissa scaled
    up: [m * 2^e = p] with [e ≤ 0]. *)
Definition carries (x : spec_float) (p : positive) : Prop :=
  ∃ m e, x = S754_finite false m e ∧ (e ≤ 0)%Z ∧
         Zpos m = (Zpos p * 2 ^ (- e))%Z.

(** The four statuses that have a bucket of their own in the summary. *)
Definition named_status : list JSValue :=
  [JString "running"; JString "idle"; JString "stopped"; JString "maintenance"].

(** The records of a collection whose status is exactly [tag]. *)
Definition with_status (tag : string) (data : list MachineRecord)
  : list MachineRecord :=
  filter (λ d, status d = JString tag) data.

(** A facet constrains a field unless its selection is ["all"]: the field
    then has to be the selected string itself. *)
Definition facet (selected : string) (field : JSValue) : Prop :=
  selected ≠ "all" → field = JString selected.

Section ComponentVocabulary.
Context `{Host}.

(** The records the four selections of a state ask for. *)
Definition selected_by (st : State) (r : MachineRecord) : Prop :=
  facet (selectedMachine st) (deviceId r) ∧
  facet (selectedShift st) (shift r) ∧
  facet (selectedDesign st) (design r) ∧
  facet (selectedStatus st) (status r).

#[global] Instance selected_by_dec st r : Decision (selected_by st r).
Proof. unfold selected_by, facet. apply _. Defined.
End ComponentVocabulary.

(** The ways an ingestion fails: the request fails, the response is not a
    success, the envelope says [success: false] (or any falsy value), or its
    [data] is not an array. *)
Inductive IngestionFailure : Response → Prop :=
  | network_error :
      IngestionFailure Rejected
  | non_success_response json :
      IngestionFailure (Responded false json)
  | success_false success data message :
      truthy success = false →
      IngestionFailure (Responded true (Some (ResultObject success data message)))
  | non_array_data success message :
      IngestionFailure (Responded true (Some (ResultObject success None message))).

(** The notice [fetchMachineData] shows when it catches an error. *)
Definition fetch_warning : Toast :=
  {| title := "Error"; description := "Failed to fetch machine data.";
     toast_status := "warning"; duration := 3000; isClosable := true |}.

(** ** Sample data *)

(** A host to evaluate the model with: a date is the text it renders to, a
    string that is no date renders as ["Invalid Date"]. *)
Definition test_host : Host :=
  {| Date := string;
     new_Date := λ v, match v with JString s => s | _ => "Invalid Date" end;
     toLocaleString := λ d, d;
     number_toString := λ _, "0";
     string_toNumber := λ _, NaN;
     object_toString := λ _, "[object Object]" |}.

Definition noon : @Date test_host := "1/1/2025, 12:00:00 PM".

Definition row_Running : RawObject :=
  {[ "device_id" := JString "D1" ]} ∪ {[ "status" := JString "Running" ]}.

Definition row_abc : RawObject :=
  {[ "device_id" := JString "D1" ]} ∪ {[ "count" := JString "abc" ]}.

Definition row_D1 : RawObject :=
  list_to_map
    [("device_id", JString "D1"); ("timestamp", JString "1/1/2025, 9:00:00 AM");
     ("shift", JString "A"); ("design", JString "X"); ("count", num 10);
     ("efficiency", num 90); ("error1", num 1); ("error2", num 0);
     ("status", JString "running")].

Definition row_blank : RawObject :=
  list_to_map
    [("device_id", JString ""); ("shift", JString ""); ("design", JString "");
     ("status", JString ""); ("count", num 0); ("efficiency", num 0);
     ("error1", num 0); ("error2", num 0)].

(** The two records of the aggregation example; the properties the example
    leaves out read as [undefined]. *)
Definition two_records : list MachineRecord :=
  [ {| deviceId := JUndefined; timestamp := JUndefined; shift := JUndefined;
       design := JUndefined; count := num 10; efficiency := num 90;
       error1 := num 1; error2 := num 0; status := JString "running" |};
    {| deviceId := JUndefined; timestamp := JUndefined; shift := JUndefined;
       design := JUndefined; count := num 5; efficiency := num 70;
       error1 := num 0; error2 := num 2; status := JString "idle" |} ].

(** Three records whose counts are 2^53, 1 and 1. *)
Definition counting (n : Z) : MachineRecord :=
  {| deviceId := JUndefined; timestamp := JUndefined; shift := JUndefined;
     design := JUndefined; count := num n; efficiency := num 0;
     error1 := num 0; error2 := num 0; status := JString "running" |}.

Definition rounding_records : list MachineRecord :=
  [counting (2 ^ 53); counting 1; counting 1].

(** A successful envelope carrying [row_D1]. *)
Definition response_D1 : Response :=
  Responded true (Some (ResultObject (JBool true) (Some [Some row_D1]) JUndefined)).

(** An envelope that reports a failure. *)
Definition response_failed : Response :=
  Responded true
    (Some (ResultObject (JBool false) (Some []) (JString "no data"))).

(** The session once the first request was answered by [response_D1]. *)
Definition loaded : @Session test_host :=
  step (mount (H := test_host) noon) (Settle 0 response_D1 noon).

(** The three records of the filter example. *)
Definition record_of (device shift_code : string) : MachineRecord :=
  {| deviceId := JString device; timestamp := JString noon;
     shift := JString shift_code; design := JString "-"; count := num 0;
     efficiency := num 0; error1 := num 0; error2 := num 0;
     status := JString "unknown" |}.

Definition three_records : list MachineRecord :=
  [record_of "D1" "A"; record_of "D1" "B"; record_of "D2" "A"].

Definition selecting (device shift_code : string) : @State test_host :=
  {| machineData := three_records; isLoading := false;
     selectedMachine := device; selectedShift := shift_code;
     selectedDesign := "all"; selectedStatus := "all";
     lastUpdated := noon; autoRefresh := false; refreshInterval := 30;
     apiSummaryData := None |}.

(** ** Status colours: [getStatusColor], [getStatusBorderColor],
    [getStatusGradient] *)

(** [String.prototype.toLowerCase], which the engine computes from the
    Unicode tables. *)
Class Strings : Type := {
  toLowerCase : string → string;
}.

Section Styling.
Context `{Strings}.

(** [status.toLowerCase()] is a call of a method only strings have: for any
    other value it throws a [TypeError]. *)
Definition getStatusColor (status : JSValue) : Completion string :=
  match status with
  | JString s =>
      let lowered := toLowerCase s in
      Normal (if decide (lowered = "running") then "green"
              else if decide (lowered = "idle") then "yellow"
              else if decide (lowered = "stopped") then "red"
              else if decide (lowered = "maintenance") then "orange"
              else "gray")
  | _ => Throw TypeError
  end.

Definition getStatusBorderColor (status : JSValue) : Completion string :=
  match status with
  | JString s =>
      let lowered := toLowerCase s in
      Normal (if decide (lowered = "running") then "green.400"
              else if decide (lowered = "idle") then "yellow.400"
              else if decide (lowered = "stopped") then "red.400"
              else if decide (lowered = "maintenance") then "orange.400"
              else "gray.400")
  | _ => Throw TypeError
  end.

Definition getStatusGradient (status : JSValue) : Completion string :=
  match status with
  | JString s =>
      let lowered := toLowerCase s in
      Normal (if decide (lowered = "running")
              then "linear(to-tr, white, green.50)"
              else if decide (lowered = "idle")
              then "linear(to-tr, white, yellow.50)"
              else if decide (lowered = "stopped")
              then "linear(to-tr, white, red.50)"
              else if decide (lowered = "maintenance")
              then "linear(to-tr, white, orange.50)"
              else "linear(to-tr, white, gray.50)")
  | _ => Throw TypeError
  end.
End Styling.

(** Lowering the letters [A] to [Z], to evaluate the colours with. *)
Definition lower_ascii (c : Ascii.ascii) : Ascii.ascii :=
  let n := Ascii.nat_of_ascii c in
  if (65 <=? n)%nat && (n <=? 90)%nat then Ascii.ascii_of_nat (n + 32) else c.

Fixpoint lower_letters (s : string) : string :=
  match s with
  | EmptyString => EmptyString
  | String c rest => String (lower_ascii c) (lower_letters rest)
  end.

Definition test_strings : Strings := {| toLowerCase := lower_letters |}.

(** ** Sessions *)

Section SessionVocabulary.
Context `{Host}.

(** *** What holds of a session between two events *)

(** The armed interval is the one the last run of the auto-refresh effect
    left: none when auto refresh is off, else one of the selected period
    whose callback fetches the selected machine. *)
Definition timer_ok (s : Session) : Prop :=
  interval s =
    if autoRefresh (state s)
    then Some (refreshInterval (state s) * 1000, selectedMachine (state s))
    else None.

(** The summary shown is the summary of the records shown. *)
Definition summary_ok (s : Session) : Prop :=
  (apiSummaryData (state s) = None ∧ machineData (state s) = []) ∨
  apiSummaryData (state s) = Some (buildSummary (machineData (state s))).

(** The events that select a shift, a design or a status. *)
Definition selects_facet (ev : Event) : bool :=
  match ev with
  | SelectShift _ | SelectDesign _ | SelectStatus _ => true
  | _ => false
  end.

(** [st'] selects at least what [st] selects: every facet of [st] is ["all"]
    or has the selection of [st']. *)
Definition narrows (st st' : State) : Prop :=
  machineData st' = machineData st ∧
  (selectedMachine st = "all" ∨ selectedMachine st' = selectedMachine st) ∧
  (selectedShift st = "all" ∨ selectedShift st' = selectedShift st) ∧
  (selectedDesign st = "all" ∨ selectedDesign st' = selectedDesign st) ∧
  (selectedStatus st = "all" ∨ selectedStatus st' = selectedStatus st).
End SessionVocabulary.



Definition is_string (v : JSValue) : bool :=
  match v with
  | JString _ => true
  | _ => false
  end.

(** ** The PLC table: [src/pages/PlcMachineData.tsx] *)

Module Plc.

(** A parsed JSON value, objects and arrays with what they hold: [fetchData]
    reads inside them. *)
#[warnings="-register-all"]
Inductive Json : Type :=
  | JsNull
  | JsBool (b : bool)
  | JsNum (n : JSNumber)
  | JsStr (s : string)
  | JsArr (items : list Json)
  | JsObj (fields : gmap string Json).

(** A value of a row: a JSON value or [undefined] ([None]). *)
Abbreviation Value := (option Json).

(** [type Row = Record<string, any>] *)
Abbreviation Row := (gmap string Value).

Definition truthy (v : Value) : bool :=
  match v with
  | None | Some JsNull => false
  | Some (JsBool b) => b
  | Some (JsNum NaN) | Some (JsNum Zero) => false
  | Some (JsNum _) => true
  | Some (JsStr s) => bool_decide (s ≠ "")
  | Some (JsArr _) | Some (JsObj _) => true
  end.

(** [v?.[key]] for one of the names [fetchData] reads: the property of an
    object, [undefined] for [null], [undefined], a primitive or an array. *)
Definition get (v : Value) (key : string) : Value :=
  match v with
  | Some (JsObj fields) => fields !! key
  | _ => None
  end.

Definition dm_keys : list string :=
  ["DM0000"; "DM0001"; "DM0002"; "DM0003"; "DM0004";
   "DM0005"; "DM0006"; "DM0007"; "DM0008"; "DM0009"].

Definition columns : list string := ["device_id"; "timestamp"] ++ dm_keys.

(** The callback of [incoming.map]. *)
Definition map_item (item : Json) : Row :=
  let base : Row :=
    <["timestamp" := get (Some item) "timestamp"]>
      (<["device_id" := get (Some item) "device_id"]> ∅) in
  let dm : Value :=
    if truthy (get (Some item) "dm_words") then get (Some item) "dm_words"
    else Some (JsObj ∅) in
  fold_left (λ base k, <[k := get dm k]> base) dm_keys base.

(** Which rows the body of the response stands for.  [json] is [null] when
    [res.json()] failed. *)
Definition incoming (json : Json) : list Json :=
  match json with
  | JsArr items => items
  | JsObj fields =>
      match fields !! "data" with
      | Some (JsArr items) => items
      | _ => [json]
      end
  | _ => []
  end.

Record State : Type := {
  rows : list Row;
  loading : bool;
  error : string;
}.

(** [fetch] fails with an error of some message, or gives a response of some
    status whose body parses or not. *)
Inductive Response : Type :=
  | Rejected (message : string)
  | Responded (ok : bool) (body : option Json).

(** [fetchData] up to [await fetch]. *)
Definition fetchData_begin (st : State) : State :=
  {| rows := rows st; loading := true; error := "" |}.

(** [fetchData] from the response on. *)
Definition fetchData_settle (resp : Response) (st : State) : State :=
  match resp with
  | Responded _ body =>
      let json := default JsNull body in
      let mapped := map map_item (incoming json) in
      {| rows := mapped; loading := false; error := error st |}
  | Rejected message =>
      {| rows := rows st; loading := false;
         error := if bool_decide (message ≠ "") then message
                  else "Failed to fetch PLC machine data" |}
  end.

(** [fetchData] is called at the first render and at every click of Refresh.
    The button is never disabled, so a call may begin while another awaits
    its response: an event begins a call or settles one that is awaited. *)
Inductive Event : Type :=
  | Refresh
  | Settle (resp : Response).

Definition step (st : State) (ev : Event) : State :=
  match ev with
  | Refresh => fetchData_begin st
  | Settle resp => fetchData_settle resp st
  end.

Definition run (st : State) (evs : list Event) : State :=
  fold_left step evs st.

(** The state cells before the first render's effect. *)
Definition initial : State := {| rows := []; loading := false; error := "" |}.

(** What a cell shows: a dash for [null] and [undefined], else the value as
    [String] prints it. *)
Inductive Cell : Type :=
  | Dash
  | Text (v : Json).

Definition cell (row : Row) (col : string) : Cell :=
  match row !! col with
  | Some (Some JsNull) | Some None | None => Dash
  | Some (Some v) => Text v
  end.

(** The part of the page below the header. *)
Inductive View : Type :=
  | Spinner
  | ErrorBox (message : string)
  | NoData
  | Table (cells : list (list Cell)).

Definition view (st : State) : View :=
  if loading st then Spinner
  else if bool_decide (error st ≠ "") then ErrorBox (error st)
  else match rows st with
       | [] => NoData
       | _ => Table (map (λ row, map (cell row) columns) (rows st))
       end.

End Plc.

(** ** Operators *)

(** Two rationals with the same reduced fraction are the same number. *)
Ltac qc_eq := apply Qc_is_canon; vm_compute; reflexivity.

Lemma js_or_truthy a b : truthy a = true → js_or a b = a.
Proof. unfold js_or. by intros ->. Qed.

Lemma js_or_falsy a b : truthy a = false → js_or a b = b.
Proof. unfold js_or. by intros ->. Qed.

Lemma truthy_js_or a b : truthy b = true → truthy (js_or a b) = true.
Proof. unfold js_or. by destruct (truthy a) eqn:E. Qed.

Lemma js_or_js_or a b : truthy b = true → js_or (js_or a b) b = js_or a b.
Proof. intros Hb. by rewrite (js_or_truthy (js_or a b)); [|apply truthy_js_or]. Qed.

Lemma js_coalesce_nullish a b : nullish a = true → js_coalesce a b = b.
Proof. unfold js_coalesce. by intros ->. Qed.

Lemma js_coalesce_value a b : nullish a = false → js_coalesce a b = a.
Proof. unfold js_coalesce. by intros ->. Qed.

Lemma js_coalesce_js_coalesce a b :
  nullish b = false → js_coalesce (js_coalesce a b) b = js_coalesce a b.
Proof.
  intros Hb. unfold js_coalesce at 1.
  destruct (nullish (js_coalesce a b)) eqn:E; [|done].
  unfold js_coalesce in E. destruct (nullish a) eqn:Ea; congruence.
Qed.

Lemma prop_absent (item : RawObject) key :
  item !! key = None → prop item key = JUndefined.
Proof. unfold prop. by intros ->. Qed.

(** ** Normalizer *)

Section NormalizerFacts.
Context `{Host}.

(** On an array of objects [transformMachineData] is [rows.map] of the
    callback, and throws nothing. *)
Lemma transformMachineData_objects (now : Date) (rows : list RawObject) :
  transformMachineData now (Some <$> rows) = Normal (transformRow now <$> rows).
Proof.
  induction rows as [|item rows IH]; [done|].
  cbn [fmap list_fmap transformMachineData transformItem mbind Completion_bind].
  fold (fmap (M := list) (@Some RawObject)). by rewrite IH.
Qed.

Lemma to_object_props (r : MachineRecord) :
  prop (to_object r) "device_id" = JUndefined ∧
  prop (to_object r) "timestamp" = timestamp r ∧
  prop (to_object r) "shift" = shift r ∧
  prop (to_object r) "design" = design r ∧
  prop (to_object r) "count" = count r ∧
  prop (to_object r) "efficiency" = efficiency r ∧
  prop (to_object r) "error1" = error1 r ∧
  prop (to_object r) "error2" = error2 r ∧
  prop (to_object r) "status" = status r.
Proof. repeat split; reflexivity. Qed.

(** C1, as amended.  The normalised status is the source status itself
    whenever that is truthy, whatever its letter case, and ["unknown"] when
    the source status is absent or falsy.  It is therefore one of the five
    status tags exactly when the source status is falsy or already one of
    the five lowercase tags. *)
Theorem status_kept_or_unknown (now : Date) (item : RawObject) :
  status (transformRow now item) =
    (if truthy (prop item "status") then prop item "status"
     else JString "unknown") ∧
  (is_StatusTag (status (transformRow now item)) = true ↔
     truthy (prop item "status") = false ∨
     is_StatusTag (prop item "status") = true).
Proof.
  split; [done|]. cbn [transformRow status]. unfold js_or.
  destruct (truthy (prop item "status")) eqn:E.
  - split; [by right|]. by intros [?|?].
  - split; [by left|done].
Qed.

(** C3, as amended.  Each of count, efficiency, error1 and error2 is [0]
    when the source value is [null] or absent and the source value itself
    otherwise, a string such as ["abc"] included.  The normalised field is
    therefore a number whenever the source value is a number, [null] or
    absent. *)
Theorem numeric_fields_coalesced (now : Date) (item : RawObject) :
  let r := transformRow now item in
  let field key :=
    if nullish (prop item key) then num 0 else prop item key in
  (count r = field "count" ∧ efficiency r = field "efficiency" ∧
   error1 r = field "error1" ∧ error2 r = field "error2") ∧
  ((is_number (prop item "count") || nullish (prop item "count") = true →
    is_number (count r) = true) ∧
   (is_number (prop item "efficiency") || nullish (prop item "efficiency") = true →
    is_number (efficiency r) = true) ∧
   (is_number (prop item "error1") || nullish (prop item "error1") = true →
    is_number (error1 r) = true) ∧
   (is_number (prop item "error2") || nullish (prop item "error2") = true →
    is_number (error2 r) = true)).
Proof.
  cbn [transformRow count efficiency error1 error2]. unfold js_coalesce.
  split; [done|].
  repeat split; intros Hk;
    match goal with
    | |- context [nullish ?v] => by destruct v
    end.
Qed.

(** C2, as amended.  Normalising a normalised record, read by its own
    property names, leaves shift, design, count, efficiency, error1, error2
    and status as they are.  Its deviceId becomes ["Unknown"], because the
    normaliser reads [device_id] and the record it builds names that field
    [deviceId]; its timestamp is the host's rendering of the date the host
    builds from the first rendering. *)
Theorem renormalize_fields (now now' : Date) (item : RawObject) :
  let r := transformRow now item in
  let r' := transformRow now' (to_object r) in
  shift r' = shift r ∧ design r' = design r ∧ count r' = count r ∧
  efficiency r' = efficiency r ∧ error1 r' = error1 r ∧
  error2 r' = error2 r ∧ status r' = status r ∧
  deviceId r' = JString "Unknown" ∧
  timestamp r' =
    JString (toLocaleString (if truthy (timestamp r)
                             then new_Date (timestamp r) else now')).
Proof.
  intros r r'.
  destruct (to_object_props r) as (Hd & Ht & Hs & Hg & Hc & He & H1 & H2 & Hu).
  subst r'. unfold transformRow at 1 2 3 4 5 6 7 8 9.
  cbn [deviceId timestamp shift design count efficiency error1 error2 status].
  rewrite Hd, Ht, Hs, Hg, Hc, He, H1, H2, Hu.
  subst r. cbn [transformRow shift design count efficiency error1 error2 status].
  rewrite !js_or_js_or, !js_coalesce_js_coalesce by done.
  done.
Qed.

(** C10.  For the string fields the empty string is treated as an absent
    field: a device_id, shift, design or status that is [""] or absent
    normalises to ["Unknown"], ["-"], ["-"] and ["unknown"].  The numeric
    fields replace only [null] and [undefined] by [0]: every other source
    value is kept, so an explicit [0] stays [0]. *)
Theorem empty_string_as_absent (now : Date) (item : RawObject) :
  let r := transformRow now item in
  let blank key := prop item key = JString "" ∨ item !! key = None in
  let kept key v :=
    (nullish (prop item key) = true → v = num 0) ∧
    (nullish (prop item key) = false → v = prop item key) ∧
    (prop item key = num 0 → v = num 0) in
  (blank "device_id" → deviceId r = JString "Unknown") ∧
  (blank "shift" → shift r = JString "-") ∧
  (blank "design" → design r = JString "-") ∧
  (blank "status" → status r = JString "unknown") ∧
  kept "count" (count r) ∧ kept "efficiency" (efficiency r) ∧
  kept "error1" (error1 r) ∧ kept "error2" (error2 r).
Proof.
  intros r blank kept.
  assert (Hblank : ∀ key d, blank key → js_or (prop item key) d = d).
  { intros key d [E|E]; [|apply prop_absent in E]; by rewrite E. }
  assert (Hkept : ∀ key, kept key (js_coalesce (prop item key) (num 0))).
  { intros key. repeat split.
    - apply js_coalesce_nullish.
    - apply js_coalesce_value.
    - by intros ->. }
  repeat split; try (intros Hb; by apply Hblank); apply Hkept.
Qed.
End NormalizerFacts.

(** C1 as stated fails: the source status ["Running"] is kept with its capital
    letter, and it is none of the five status tags. *)
Lemma status_Running_kept :
  status (transformRow (H := test_host) noon row_Running) = JString "Running" ∧
  is_StatusTag (status (transformRow (H := test_host) noon row_Running)) = false.
Proof. split; reflexivity. Qed.

(** [status_kept_or_unknown] on a row without status. *)
Lemma status_kept_or_unknown_witness :
  is_StatusTag (status (transformRow (H := test_host) noon row_abc)) = true.
Proof.
  apply (status_kept_or_unknown (H := test_host) noon row_abc). by left.
Defined.

(** C3 as stated fails: the count ["abc"] is kept as the string it is. *)
Lemma count_abc_kept :
  count (transformRow (H := test_host) noon row_abc) = JString "abc" ∧
  is_number (count (transformRow (H := test_host) noon row_abc)) = false.
Proof. split; reflexivity. Qed.

(** [numeric_fields_coalesced] on a row whose numeric fields are numbers. *)
Lemma numeric_fields_coalesced_witness :
  is_number (count (transformRow (H := test_host) noon row_D1)) = true ∧
  is_number (error2 (transformRow (H := test_host) noon row_abc)) = true.
Proof.
  split.
  - by apply (numeric_fields_coalesced (H := test_host) noon row_D1).
  - by apply (numeric_fields_coalesced (H := test_host) noon row_abc).
Defined.

(** C2 as stated fails: normalising the normalised [row_D1] loses the device
    identifier, so the second pass differs from the first. *)
Lemma renormalize_loses_deviceId :
  let r := transformRow (H := test_host) noon row_D1 in
  deviceId r = JString "D1" ∧
  deviceId (transformRow (H := test_host) noon (to_object r)) = JString "Unknown" ∧
  transformRow (H := test_host) noon (to_object r) ≠ r.
Proof.
  repeat split; [reflexivity..|]. intros E.
  apply (f_equal deviceId) in E. vm_compute in E. discriminate E.
Qed.

(** [empty_string_as_absent] on a row of empty strings and zeros. *)
Lemma empty_string_as_absent_witness :
  let r := transformRow (H := test_host) noon row_blank in
  deviceId r = JString "Unknown" ∧ shift r = JString "-" ∧
  design r = JString "-" ∧ status r = JString "unknown" ∧
  count r = num 0.
Proof.
  pose proof (empty_string_as_absent (H := test_host) noon row_blank)
    as (Hd & Hs & Hg & Hu & (_ & _ & Hn) & _).
  intros r.
  split; [apply Hd; by left|]. split; [apply Hs; by left|].
  split; [apply Hg; by left|]. split; [apply Hu; by left|].
  by apply Hn.
Defined.


(** ** Integers as doubles

    Normalising a mantissa and exponent gives the same double when the
    mantissa is scaled up and the exponent down; so adding two non-negative
    integers is exact as long as the sum is at most [2^53]. *)

Section Doubles.
Local Open Scope Z_scope.

Lemma iter_pos_iter {A} (f : A → A) (n : positive) (x : A) :
  SpecFloat.iter_pos f n x = Pos.iter f x n.
Proof.
  revert x. induction n as [n IH|n IH|]; intros x; cbn; [|by rewrite !IH|done].
  by rewrite !IH, !Pos.iter_swap.
Qed.

Lemma digits_iter_xO (p k : positive) :
  Zpos (digits2_pos (Pos.iter xO p k)) = Zpos (digits2_pos p) + Zpos k.
Proof.
  induction k as [|k IH] using Pos.peano_ind; [cbn; lia|].
  rewrite Pos.iter_succ. cbn [digits2_pos]. lia.
Qed.

Lemma Zpos_iter_xO (p k : positive) :
  Zpos (Pos.iter xO p k) = Zpos p * 2 ^ Zpos k.
Proof.
  induction k as [|k IH] using Pos.peano_ind; [cbn; lia|].
  rewrite Pos.iter_succ, Pos2Z.inj_succ, Z.pow_succ_r by lia.
  rewrite Pos2Z.inj_xO, IH. lia.
Qed.

Lemma shr_iter_xO (p k : positive) :
  Pos.iter shr_1 (exact_record (Pos.iter xO p k)) k = exact_record p.
Proof.
  induction k as [|k IH] using Pos.peano_ind; [done|].
  by rewrite Pos.iter_succ_r, Pos.iter_succ.
Qed.

Lemma round_aux_canonical (sx : bool) (m : positive) (e : Z) :
  fexp 53 1024 (Zpos (digits2_pos m) + e) = e → e ≤ 971 →
  binary_round_aux 53 1024 sx (Zpos m) e loc_Exact = S754_finite sx m e.
Proof.
  intros Hcanon He. unfold binary_round_aux, shr_fexp.
  cbn [Zdigits2 shr_record_of_loc]. rewrite Hcanon, Z.sub_diag.
  cbn [shr shr_m loc_of_shr_record round_nearest_even Zdigits2 shr_record_of_loc].
  rewrite Hcanon, Z.sub_diag. cbn [shr shr_m].
  by rewrite (proj2 (Z.leb_le _ _)) by (cbn; lia).
Qed.

Lemma shr_fexp_scale (p k : positive) (e : Z) :
  0 ≤ fexp 53 1024 (Zpos (digits2_pos p) + e) - e →
  shr_fexp 53 1024 (Zpos (Pos.iter xO p k)) (e - Zpos k) loc_Exact =
  shr_fexp 53 1024 (Zpos p) e loc_Exact.
Proof.
  intros Hf. unfold shr_fexp. cbn [Zdigits2 shr_record_of_loc].
  rewrite digits_iter_xO.
  replace (Zpos (digits2_pos p) + Zpos k + (e - Zpos k))
    with (Zpos (digits2_pos p) + e) by lia.
  set (f := fexp 53 1024 (Zpos (digits2_pos p) + e)) in *.
  fold (exact_record (Pos.iter xO p k)). fold (exact_record p).
  destruct (f - e) as [|q|q] eqn:Efe; [| |lia].
  - replace (f - (e - Zpos k)) with (Zpos k) by lia. cbn [shr].
    rewrite iter_pos_iter, shr_iter_xO. f_equal. lia.
  - replace (f - (e - Zpos k)) with (Zpos (q + k)) by lia. cbn [shr].
    rewrite !iter_pos_iter, Pos.iter_add, shr_iter_xO. f_equal. lia.
Qed.

Lemma normalize_scale (p k : positive) (e : Z) :
  binary_normalize 53 1024 (Zpos (Pos.iter xO p k)) (e - Zpos k) false =
  binary_normalize 53 1024 (Zpos p) e false.
Proof.
  unfold binary_normalize, binary_round. rewrite digits_iter_xO.
  replace (Zpos (digits2_pos p) + Zpos k + (e - Zpos k))
    with (Zpos (digits2_pos p) + e) by lia.
  set (D := Zpos (digits2_pos p) + e).
  set (f := fexp 53 1024 D).
  unfold shl_align.
  destruct (f - e) as [|q|q] eqn:Efe.
  - replace (f - (e - Zpos k)) with (Zpos k) by lia.
    unfold binary_round_aux. rewrite shr_fexp_scale; [done|].
    fold D. fold f. lia.
  - replace (f - (e - Zpos k)) with (Zpos (q + k)) by lia.
    unfold binary_round_aux. rewrite shr_fexp_scale; [done|].
    fold D. fold f. lia.
  - destruct (f - (e - Zpos k)) as [|r|r] eqn:Efk.
    + assert (k = q) as -> by lia. by replace (e - Zpos q) with f by lia.
    + assert (k = (r + q)%positive) as -> by lia.
      rewrite Pos.iter_add.
      replace (e - Zpos (r + q)) with (f - Zpos r) by lia.
      unfold binary_round_aux. rewrite shr_fexp_scale; [done|].
      rewrite digits_iter_xO.
      replace (Zpos (digits2_pos p) + Zpos q + f) with D by (unfold D; lia).
      fold f. lia.
    + assert (q = (r + k)%positive) as -> by lia.
      by rewrite Pos.iter_add.
Qed.

Lemma digits_lower (p : positive) : 2 ^ (Zpos (digits2_pos p) - 1) ≤ Zpos p.
Proof.
  induction p as [p IH|p IH|]; cbn [digits2_pos]; [| |done].
  - rewrite Pos2Z.inj_succ.
    replace (Z.succ (Zpos (digits2_pos p)) - 1)
      with (Z.succ (Zpos (digits2_pos p) - 1)) by lia.
    rewrite Z.pow_succ_r by lia. lia.
  - rewrite Pos2Z.inj_succ.
    replace (Z.succ (Zpos (digits2_pos p)) - 1)
      with (Z.succ (Zpos (digits2_pos p) - 1)) by lia.
    rewrite Z.pow_succ_r by lia. lia.
Qed.

Lemma digits_small (p : positive) : Zpos p < 2 ^ 53 → Zpos (digits2_pos p) ≤ 53.
Proof.
  intros Hp. pose proof (digits_lower p) as Hd.
  destruct (decide (Zpos (digits2_pos p) ≤ 53)) as [|Hbig]; [done|].
  assert (2 ^ 53 ≤ 2 ^ (Zpos (digits2_pos p) - 1))
    by (apply Z.pow_le_mono_r; lia).
  lia.
Qed.

Lemma normalize_carries (p : positive) :
  Zpos p < 2 ^ 53 → carries (binary_normalize 53 1024 (Zpos p) 0 false) p.
Proof.
  intros Hp. apply digits_small in Hp.
  unfold binary_normalize, binary_round, shl_align.
  assert (Hf : ∀ d, 1 ≤ d → fexp 53 1024 d = d - 53)
    by (intros d Hd; unfold fexp, emin; lia).
  rewrite Z.add_0_r, Hf, Z.sub_0_r by lia.
  destruct (Zpos (digits2_pos p) - 53) as [|k|k] eqn:Ed; [|lia|].
  - exists p, 0. split; [|split; [lia|cbn; lia]].
    apply round_aux_canonical; [|lia]. rewrite Z.add_0_r, Hf; lia.
  - exists (Pos.iter xO p k), (Zneg k).
    split; [|split; [lia|by rewrite Zpos_iter_xO]].
    apply round_aux_canonical; [|lia]. rewrite digits_iter_xO, Hf; lia.
Qed.

Lemma shl_align_down (m : positive) (e ez : Z) :
  ez ≤ e → Zpos (fst (shl_align m e ez)) = Zpos m * 2 ^ (e - ez).
Proof.
  intros He. unfold shl_align.
  destruct (ez - e) as [|k|k] eqn:Ed; [|lia|].
  - replace (e - ez) with 0 by lia. cbn [fst]. lia.
  - replace (e - ez) with (Zpos k) by lia. cbn [fst]. apply Zpos_iter_xO.
Qed.

Lemma SFadd_carries (x y : spec_float) (p q : positive) :
  carries x p → carries y q →
  SFadd 53 1024 x y = binary_normalize 53 1024 (Zpos (p + q)) 0 false.
Proof.
  intros (m1 & e1 & -> & He1 & Hm1) (m2 & e2 & -> & He2 & Hm2).
  cbn [SFadd cond_Zopp]. set (ez := Z.min e1 e2).
  assert (Hsum : Zpos (fst (shl_align m1 e1 ez)) + Zpos (fst (shl_align m2 e2 ez)) =
                 Zpos (p + q) * 2 ^ (- ez)).
  { rewrite !shl_align_down by lia. rewrite Hm1, Hm2.
    rewrite <-!Z.mul_assoc, <-!Z.pow_add_r by lia.
    replace (- e1 + (e1 - ez)) with (- ez) by lia.
    replace (- e2 + (e2 - ez)) with (- ez) by lia. lia. }
  destruct ez as [|k|k] eqn:Eez; [|lia|].
  - rewrite Hsum. by replace (Zpos (p + q) * 2 ^ (- 0)) with (Zpos (p + q)) by (cbn; lia).
  - rewrite Hsum. change (- Zneg k) with (Zpos k).
    rewrite <-Zpos_iter_xO. change (Zneg k) with (0 - Zpos k).
    apply normalize_scale.
Qed.

Lemma num_add_0_l (x : JSNumber) : num_add Zero x = x.
Proof. by destruct x. Qed.

Lemma num_add_0_r (x : JSNumber) : num_add x Zero = x.
Proof. by destruct x. Qed.

Lemma to_spec_of_Z (p : positive) :
  Zpos p < 2 ^ 53 → to_spec (of_Z (Zpos p)) = binary_normalize 53 1024 (Zpos p) 0 false.
Proof.
  intros Hp. unfold of_Z.
  by destruct (normalize_carries p Hp) as (m & e & -> & _).
Qed.

(** Adding two non-negative integers does not round as long as the sum is
    at most [2^53]. *)
Lemma num_add_of_Z (a b : Z) :
  0 ≤ a → 0 ≤ b → a + b ≤ 2 ^ 53 → num_add (of_Z a) (of_Z b) = of_Z (a + b).
Proof.
  intros Ha Hb Hab.
  destruct a as [|p|p]; [by rewrite num_add_0_l| |lia].
  destruct b as [|q|q]; [by rewrite num_add_0_r, Z.add_0_r| |lia].
  unfold num_add. rewrite !to_spec_of_Z by lia.
  rewrite (SFadd_carries _ _ p q) by (apply normalize_carries; lia).
  done.
Qed.

Lemma sum_Z_nonneg (zs : list Z) : Forall (λ z, 0 ≤ z) zs → 0 ≤ sum_Z zs.
Proof. induction 1 as [|z zs Hz _ IH]; cbn; [done|]. unfold sum_Z in IH. lia. Qed.

Lemma fold_add_of_Z (zs : list Z) (acc : Z) :
  0 ≤ acc → Forall (λ z, 0 ≤ z) zs → acc + sum_Z zs ≤ 2 ^ 53 →
  fold_left num_add (of_Z <$> zs) (of_Z acc) = of_Z (acc + sum_Z zs).
Proof.
  intros Hacc Hall. revert acc Hacc.
  induction Hall as [|z zs Hz Hall IH]; intros acc Hacc Hsum; cbn [fmap list_fmap fold_left sum_Z foldr] in *.
  - by rewrite Z.add_0_r.
  - pose proof (sum_Z_nonneg zs Hall). fold (sum_Z zs) in *.
    rewrite num_add_of_Z by lia. rewrite IH by lia. f_equal. lia.
Qed.

Lemma real_of_Z (z : Z) :
  0 ≤ z ≤ 2 ^ 53 → real (of_Z z) = Some (Q2Qc (inject_Z z)).
Proof.
  intros Hz.
  destruct (decide (z = 2 ^ 53)) as [->|Hne].
  { vm_compute; first [done|f_equal; apply Qc_is_canon; vm_compute; reflexivity]. }
  destruct z as [|p|p]; [| |lia].
  { vm_compute; first [done|f_equal; apply Qc_is_canon; vm_compute; reflexivity]. }
  unfold of_Z.
  destruct (normalize_carries p) as (m & e & -> & He & Hm); [lia|].
  cbn [of_spec real]. f_equal. apply Q2Qc_eq_iff.
  rewrite Hm, inject_Z_mult, Qmult_1_l.
  destruct e as [|k|k]; [|lia|].
  - change (inject_Z (2 ^ (- 0))) with 1%Q. change (2 ^ 0)%Q with 1%Q. ring.
  - change (- Zneg k) with (Zpos k).
    rewrite Zpower_Qpower by lia.
    change (Zneg k) with (- Zpos k). rewrite Qpower_opp.
    change (inject_Z 2) with 2%Q.
    field. apply Qpower_not_0. discriminate.
Qed.
End Doubles.

(** ** Aggregator *)

Section AggregatorFacts.
Context `{Host}.

Lemma js_plus_numbers (a b : JSNumber) :
  js_plus (JNumber a) (JNumber b) = JNumber (num_add a b).
Proof. done. Qed.

Lemma js_or_zero_number v :
  not_NaN v = true → js_or v (num 0) = JNumber (number_of v).
Proof. by destruct v as [| |?|[|?| |? ? ?]|?|?]. Qed.

Lemma num_or_zero_number v :
  not_NaN v = true → num_or_zero (ToNumber v) = number_of v.
Proof. by destruct v as [| |?|[|?| |? ? ?]|?|?]. Qed.

Lemma fold_plus (f : MachineRecord → JSValue) data acc :
  Forall (λ d, not_NaN (f d) = true) data →
  fold_left (λ sum d, js_plus sum (js_or (f d) (num 0))) data (JNumber acc) =
  JNumber (fold_left num_add (map (λ d, number_of (f d)) data) acc).
Proof.
  intros Hall. revert acc.
  induction Hall as [|d data Hd _ IH]; intros acc; cbn [fold_left map]; [done|].
  by rewrite js_or_zero_number, js_plus_numbers, IH.
Qed.

Lemma fold_plus2 (f g : MachineRecord → JSValue) data acc :
  Forall (λ d, not_NaN (f d) = true ∧ not_NaN (g d) = true) data →
  fold_left (λ sum d, js_plus (js_plus sum (js_or (f d) (num 0)))
                              (js_or (g d) (num 0))) data (JNumber acc) =
  JNumber (fold_left num_add
             (flat_map (λ d, [number_of (f d); number_of (g d)]) data) acc).
Proof.
  intros Hall. revert acc.
  induction Hall as [|d data [Hf Hg] _ IH]; intros acc;
    cbn [fold_left flat_map app]; [done|].
  by rewrite !js_or_zero_number, !js_plus_numbers, IH.
Qed.

Lemma fold_add_efficiency data acc :
  Forall (λ d, not_NaN (efficiency d) = true) data →
  fold_left (λ sum d, num_add sum (num_or_zero (ToNumber (efficiency d))))
    data acc =
  fold_left num_add (map (λ d, number_of (efficiency d)) data) acc.
Proof.
  intros Hall. revert acc.
  induction Hall as [|d data Hd _ IH]; intros acc; cbn [fold_left map]; [done|].
  by rewrite num_or_zero_number, IH.
Qed.

Lemma real_fold_exact (xs : list JSNumber) (sum : JSNumber) (a : Qc) :
  real sum = Some a → never_rounds sum xs = true →
  real (fold_left num_add xs sum) = (λ b, a + b)%Qc <$> exact_sum xs.
Proof.
  revert sum a. induction xs as [|x xs IH]; intros sum a Ha Hexact.
  - cbn. by rewrite Ha, Qcplus_0_r.
  - cbn [never_rounds] in Hexact. apply andb_true_iff in Hexact as [Hx Hrest].
    unfold adds_exactly in Hx. rewrite Ha in Hx.
    destruct (real x) as [b|] eqn:Hb; [|done].
    destruct (real (num_add sum x)) as [c|] eqn:Hc; [|done].
    apply bool_decide_eq_true in Hx. subst c.
    cbn [fold_left exact_sum]. rewrite Hb, (IH _ _ Hc Hrest).
    destruct (exact_sum xs) as [r|]; cbn; [|done]. by rewrite Qcplus_assoc.
Qed.

(** C4, as amended.  On a collection of records whose numeric fields hold
    numbers other than [NaN], [buildSummary] gives the counts added one after
    another from [0] in the order of the records, each addition rounding to
    a double; the efficiencies added likewise and divided by the number of
    records ([0] on the empty collection); error1 and error2 of every record
    added likewise, record after record; and each error field added
    likewise.  Such a total is the exact sum of its numbers whenever none of
    its additions rounds, and whenever the numbers are non-negative integers
    whose sum is at most 2^53.  On the empty collection every number is [0]
    and [designs] is empty; on the two records of the example the numbers
    are 15, 80, 3, 1 and 2. *)
Theorem aggregate_sums (data : list MachineRecord) :
  Forall numeric data →
  let s := buildSummary data in
  let numbers (f : MachineRecord → JSValue) := map (λ d, number_of (f d)) data in
  let both := flat_map (λ d, [number_of (error1 d); number_of (error2 d)]) data in
  total_production s = JNumber (added (numbers count)) ∧
  avg_efficiency s =
    (if decide (data = []) then Zero
     else num_div (added (numbers efficiency)) (of_Z (Z.of_nat (length data)))) ∧
  total_errors s = JNumber (added both) ∧
  error1_count s = JNumber (added (numbers error1)) ∧
  error2_count s = JNumber (added (numbers error2)) ∧
  (∀ xs, xs ∈ [numbers count; both; numbers error1; numbers error2] →
         never_rounds Zero xs = true → real (added xs) = exact_sum xs) ∧
  (∀ xs zs, xs ∈ [numbers count; both; numbers error1; numbers error2] →
            xs = of_Z <$> zs → Forall (λ z, (0 ≤ z)%Z) zs →
            (sum_Z zs ≤ 2 ^ 53)%Z →
            added xs = of_Z (sum_Z zs) ∧
            real (added xs) = Some (Q2Qc (inject_Z (sum_Z zs)))) ∧
  (data = [] →
   s = {| total_production := num 0; avg_efficiency := Zero;
          total_errors := num 0; error1_count := num 0;
          error2_count := num 0;
          status_summary :=
            {| total_machines := 0; running := 0; idle := 0; stopped := 0;
               maintenance := 0 |};
          designs := [] |}) ∧
  (data = two_records →
   total_production s = num 15 ∧ avg_efficiency s = of_Z 80 ∧
   total_errors s = num 3 ∧ error1_count s = num 1 ∧ error2_count s = num 2).
Proof.
  intros Hall s numbers both.
  assert (Hc : Forall (λ d, not_NaN (count d) = true) data)
    by (eapply Forall_impl; [exact Hall|]; by intros ? (? & _)).
  assert (He : Forall (λ d, not_NaN (efficiency d) = true) data)
    by (eapply Forall_impl; [exact Hall|]; by intros ? (_ & ? & _)).
  assert (H1 : Forall (λ d, not_NaN (error1 d) = true) data)
    by (eapply Forall_impl; [exact Hall|]; by intros ? (_ & _ & ? & _)).
  assert (H2 : Forall (λ d, not_NaN (error2 d) = true) data)
    by (eapply Forall_impl; [exact Hall|]; by intros ? (_ & _ & _ & ?)).
  assert (H12 : Forall (λ d, not_NaN (error1 d) = true ∧
                             not_NaN (error2 d) = true) data)
    by (eapply Forall_impl; [exact Hall|]; by intros ? (_ & _ & ? & ?)).
  subst s numbers both. unfold added. split_and!.
  - by apply (fold_plus count data Zero).
  - cbn [buildSummary avg_efficiency].
    destruct data as [|d data]; [done|].
    rewrite !decide_False by done.
    by rewrite fold_add_efficiency.
  - by apply (fold_plus2 error1 error2 data Zero).
  - by apply (fold_plus error1 data Zero).
  - by apply (fold_plus error2 data Zero).
  - intros xs _ Hexact.
    rewrite (real_fold_exact xs Zero 0%Qc) by done.
    destruct (exact_sum xs) as [r|]; cbn; [|done]. by rewrite Qcplus_0_l.
  - intros xs zs _ -> Hzs Hsum.
    pose proof (sum_Z_nonneg zs Hzs) as Hpos.
    assert (E : fold_left num_add (of_Z <$> zs) Zero = of_Z (sum_Z zs)).
    { change Zero with (of_Z 0). by rewrite fold_add_of_Z. }
    rewrite E. split; [done|]. by apply real_of_Z.
  - by intros ->.
  - intros ->. by vm_compute.
Qed.
End AggregatorFacts.

(** C4 as stated fails.  The counts 2^53, 1 and 1 add up to 2^53 + 2, but
    each [+ 1] rounds back to 2^53, which is the total production. *)
Lemma total_production_rounds :
  Forall numeric rounding_records ∧
  Forall (λ d, is_double (number_of (count d)) = true) rounding_records ∧
  exact_sum (map (λ d, number_of (count d)) rounding_records) =
    Some (Q2Qc (inject_Z (2 ^ 53 + 2))) ∧
  total_production (buildSummary (H := test_host) rounding_records) = num (2 ^ 53) ∧
  real (of_Z (2 ^ 53)) = Some (Q2Qc (inject_Z (2 ^ 53))) ∧
  num (2 ^ 53) ≠ num (2 ^ 53 + 2).
Proof.
  split_and!.
  - repeat constructor.
  - repeat constructor.
  - vm_compute; first [done|f_equal; qc_eq].
  - by vm_compute.
  - vm_compute; first [done|f_equal; qc_eq].
  - by vm_compute.
Qed.

(** [aggregate_sums] on the two records of the example, and on no record. *)
Lemma aggregate_sums_witness :
  let s := buildSummary (H := test_host) two_records in
  Forall numeric two_records ∧
  total_production s = num 15 ∧ avg_efficiency s = of_Z 80 ∧
  total_errors s = num 3 ∧ error1_count s = num 1 ∧ error2_count s = num 2 ∧
  real (number_of (total_production s)) = Some (Q2Qc (inject_Z 15)) ∧
  real (number_of (total_errors s)) = Some (Q2Qc (inject_Z (sum_Z [1; 0; 0; 2]%Z))) ∧
  total_production (buildSummary (H := test_host) []) = num 0 ∧
  designs (buildSummary (H := test_host) []) = [].
Proof.
  intros s.
  assert (Hnum : Forall numeric two_records) by (repeat constructor).
  destruct (aggregate_sums (H := test_host) two_records Hnum)
    as (Hp & Ha & He & H1 & H2 & Hexact & Hintegers & _).
  destruct (aggregate_sums (H := test_host) [] (List.Forall_nil _))
    as (_ & _ & _ & _ & _ & _ & _ & Hnil & _).
  split; [exact Hnum|]. subst s.
  rewrite Hp, Ha, He, H1, H2, (Hnil eq_refl).
  split_and!; try by vm_compute.
  - cbn [number_of]. rewrite Hexact; [|by left|by vm_compute].
    vm_compute; first [done|f_equal; qc_eq].
  - cbn [number_of].
    apply (Hintegers _ [1; 0; 0; 2]%Z);
      [right; by left|reflexivity|repeat constructor; lia|by vm_compute].
Defined.

(** ** Status buckets *)

Lemma status_count_cons tag d data :
  status_count tag (d :: data) =
  (if strict_eq_string (status d) tag then 1 else 0) + status_count tag data.
Proof.
  unfold status_count. cbn [List.filter].
  by destruct (strict_eq_string (status d) tag).
Qed.

Lemma status_count_with_status tag data :
  status_count tag data = length (with_status tag data).
Proof.
  unfold with_status. induction data as [|d data IH]; [done|].
  rewrite status_count_cons, IH, filter_cons. unfold strict_eq_string.
  by case_bool_decide; case_decide.
Qed.

(** A record falls in one bucket when its status is named, in none
    otherwise. *)
Lemma buckets_of_record (v : JSValue) :
  (if strict_eq_string v "running" then 1 else 0) +
  (if strict_eq_string v "idle" then 1 else 0) +
  (if strict_eq_string v "stopped" then 1 else 0) +
  (if strict_eq_string v "maintenance" then 1 else 0) =
  (if decide (v ∈ named_status) then 1 else 0).
Proof.
  unfold strict_eq_string.
  destruct (decide (v ∈ named_status)) as [Hin|Hin].
  - unfold named_status in Hin. rewrite !elem_of_cons, elem_of_nil in Hin.
    by destruct Hin as [->|[->|[->|[->|[]]]]].
  - rewrite !bool_decide_eq_false_2; [done|..];
      intros ->; apply Hin; unfold named_status; set_solver.
Qed.

Lemma buckets_sum data :
  status_count "running" data + status_count "idle" data +
  status_count "stopped" data + status_count "maintenance" data =
  length (filter (λ d, status d ∈ named_status) data).
Proof.
  induction data as [|d data IH]; [done|].
  rewrite !status_count_cons, filter_cons.
  pose proof (buckets_of_record (status d)) as Hd.
  destruct (decide (status d ∈ named_status)); cbn [length]; lia.
Qed.

Lemma length_filter_all {A} (P : A → Prop) `{!∀ x, Decision (P x)} (l : list A) :
  length (filter P l) = length l ↔ Forall P l.
Proof.
  induction l as [|x l IH]; [by split; [constructor|]|].
  rewrite filter_cons. pose proof (length_filter P l) as Hle.
  case_decide as Hx; cbn [length].
  - rewrite Forall_cons. split.
    + intros [=Hlen]. apply IH in Hlen. done.
    + intros [_ Hl]. f_equal. by apply IH.
  - split; [lia|]. intros Hall. by apply Forall_cons in Hall as [? _].
Qed.

Section BucketFacts.
Context `{Host}.

(** C5.  In the status summary, [total_machines] is the number of records;
    each of running, idle, stopped and maintenance is the number of records
    with exactly that status; the four together never exceed the total and
    reach it exactly when every record has one of the four named statuses.
    A record with any other status, ["unknown"] included, adds one to the
    total and nothing to the four buckets. *)
Theorem status_buckets (data : list MachineRecord) :
  let s d := status_summary (buildSummary d) in
  total_machines (s data) = length data ∧
  running (s data) = length (with_status "running" data) ∧
  idle (s data) = length (with_status "idle" data) ∧
  stopped (s data) = length (with_status "stopped" data) ∧
  maintenance (s data) = length (with_status "maintenance" data) ∧
  (running (s data) + idle (s data) + stopped (s data) + maintenance (s data)
     ≤ total_machines (s data))%nat ∧
  (running (s data) + idle (s data) + stopped (s data) + maintenance (s data)
     = total_machines (s data) ↔
   Forall (λ d, status d ∈ named_status) data) ∧
  (∀ d, status d ∉ named_status →
     s (d :: data) =
     {| total_machines := S (total_machines (s data));
        running := running (s data); idle := idle (s data);
        stopped := stopped (s data);
        maintenance := maintenance (s data) |}).
Proof.
  intros s. subst s.
  cbn [buildSummary status_summary total_machines running idle stopped
       maintenance].
  split_and!; try apply status_count_with_status; try done.
  - rewrite buckets_sum. apply length_filter.
  - rewrite buckets_sum. apply length_filter_all.
  - intros d Hd. rewrite !status_count_cons.
    pose proof (buckets_of_record (status d)) as Hsum.
    rewrite decide_False in Hsum by done. cbn [length].
    repeat match goal with
           | |- context [strict_eq_string ?v ?t] =>
               destruct (strict_eq_string v t); try lia
           end.
    done.
Qed.
End BucketFacts.

(** ** Filter engine *)

Lemma strict_eq_string_spec v sel : strict_eq_string v sel = true ↔ v = JString sel.
Proof. unfold strict_eq_string. apply bool_decide_eq_true. Qed.

Lemma List_filter_filter {A} (f : A → bool) (P : A → Prop)
    `{!∀ x, Decision (P x)} (l : list A) :
  (∀ x, f x = true ↔ P x) → List.filter f l = filter P l.
Proof.
  intros Hf. induction l as [|x l IH]; [done|].
  cbn [List.filter]. rewrite filter_cons, IH.
  destruct (f x) eqn:E; case_decide as HP; try done.
  - by apply Hf in E.
  - apply Hf in HP. congruence.
Qed.

Lemma facet_check sel v :
  bool_decide (sel ≠ "all") && negb (strict_eq_string v sel) = false ↔
  facet sel v.
Proof.
  unfold facet.
  rewrite andb_false_iff, bool_decide_eq_false, negb_false_iff,
    strict_eq_string_spec.
  split.
  - by intros [Hall|Hv] Hsel.
  - intros Hf. destruct (decide (sel = "all")) as [->|Hsel]; [left|right]; auto.
Qed.

Section FilterFacts.
Context `{Host}.

Lemma passes_spec st r : passes st r = true ↔ selected_by st r.
Proof.
  unfold passes, selected_by. rewrite <-!facet_check.
  destruct (_ && _); [intuition congruence|].
  destruct (_ && _); [intuition congruence|].
  destruct (_ && _); [intuition congruence|].
  destruct (_ && _); intuition congruence.
Qed.

(** C6.  [filteredData] is the stable filter of the record collection by
    the four facets: a record is kept exactly when, for every facet whose
    selection is not ["all"], its field is that selected string; the kept
    records stand in the order they have in the collection. *)
Theorem filter_by_facets (st : State) :
  filteredData st = filter (selected_by st) (machineData st) ∧
  (∀ r, r ∈ filteredData st ↔ r ∈ machineData st ∧ selected_by st r) ∧
  sublist (filteredData st) (machineData st).
Proof.
  assert (E : filteredData st = filter (selected_by st) (machineData st))
    by apply List_filter_filter, passes_spec.
  rewrite E. split_and!.
  - done.
  - intros r. rewrite list_elem_of_filter. tauto.
  - apply sublist_filter.
Qed.
End FilterFacts.

(** ** Facet options *)

Lemma distinct_fold (xs seen : list JSValue) :
  let out := fold_left
    (λ seen x, if decide (x ∈ seen) then seen else seen ++ [x]) xs seen in
  (NoDup seen → NoDup out) ∧ (∀ x, x ∈ out ↔ x ∈ seen ∨ x ∈ xs).
Proof.
  revert seen. induction xs as [|y xs IH]; intros seen; cbn [fold_left].
  - split; [done|]. intros x. rewrite elem_of_nil. tauto.
  - destruct (IH (if decide (y ∈ seen) then seen else seen ++ [y])) as [Hnd Hin].
    split.
    + intros Hseen. apply Hnd. case_decide as Hy; [done|].
      apply NoDup_app. split_and!; [done| |apply NoDup_singleton].
      intros x Hx. rewrite list_elem_of_singleton. by intros ->.
    + intros x. rewrite Hin, elem_of_cons. case_decide as Hy.
      * split; [tauto|]. intros [?|[->|?]]; tauto.
      * rewrite elem_of_app, list_elem_of_singleton. tauto.
Qed.

Lemma NoDup_distinct xs : NoDup (distinct xs).
Proof. apply (distinct_fold xs []), NoDup_nil_2. Qed.

Lemma elem_of_distinct xs x : x ∈ distinct xs ↔ x ∈ xs.
Proof.
  unfold distinct. rewrite (proj2 (distinct_fold xs [])), elem_of_nil. tauto.
Qed.

Section FacetFacts.
Context `{Host}.

(** C7.  The shift options are the distinct shift values of the whole
    record collection, each once, and not of the filtered one: selecting
    one status or another leaves the same list of shift options. *)
Theorem shift_options_independent (s : Session) (status1 status2 : string) :
  shifts (state (step s (SelectStatus status1))) =
    shifts (state (step s (SelectStatus status2))) ∧
  shifts (state (step s (SelectStatus status1))) =
    distinct (map shift (machineData (state s))) ∧
  NoDup (shifts (state (step s (SelectStatus status1)))) ∧
  (∀ v, v ∈ shifts (state (step s (SelectStatus status1))) ↔
        ∃ r, r ∈ machineData (state s) ∧ shift r = v).
Proof.
  cbn [step with_state state]. unfold shifts. cbn [setSelectedStatus machineData].
  split_and!; [done|done|apply NoDup_distinct|].
  intros v. rewrite elem_of_distinct, list_elem_of_fmap.
  split; intros (r & ? & ?); by exists r.
Qed.
End FacetFacts.

(** The shift options are not those of the filtered records: with device
    ["D2"] selected only a record of shift ["A"] is shown, and shift ["B"] is
    still offered. *)
Example shift_options_unfiltered :
  shift <$> filteredData (selecting "D2" "all") = [JString "A"] ∧
  shifts (selecting "D2" "all") = [JString "A"; JString "B"].
Proof. split; reflexivity. Qed.

(** ** Ingestion *)

Section IngestionFacts.
Context `{Host}.

Lemma read_response_failure resp :
  IngestionFailure resp → ∃ e, read_response resp = Throw e.
Proof.
  intros [|json|success data message Hs|success message]; cbn [read_response negb].
  - by eexists.
  - by eexists.
  - rewrite Hs. destruct data; by eexists.
  - by eexists.
Qed.

Lemma settle_thrown now resp s e :
  try_block now resp s = Throw e →
  fetchMachineData_settle now resp s =
    Normal (finally_block (toast fetch_warning (console_error e s))).
Proof. unfold fetchMachineData_settle. by intros ->. Qed.

(** [fetchMachineData] catches whatever its [try] block throws. *)
Lemma fetchMachineData_settles now resp s :
  ∃ s', fetchMachineData_settle now resp s = Normal s'.
Proof.
  unfold fetchMachineData_settle. destruct (try_block now resp s); by eexists.
Qed.

Lemma settle_applied now resp s rows transformedData :
  read_response resp = Normal rows →
  transformMachineData now rows = Normal transformedData →
  fetchMachineData_settle now resp s =
    Normal (finally_block
              (with_state
                 (λ st, setLastUpdated now
                    (setApiSummaryData (Some (buildSummary transformedData))
                       (setMachineData transformedData st))) s)).
Proof.
  intros Hresp Hrows. unfold fetchMachineData_settle, try_block.
  rewrite Hresp. cbn [mbind Completion_bind]. by rewrite Hrows.
Qed.

(** C8.  When an ingestion fails (the request fails, the response is not a
    success, the envelope has a falsy [success], or its [data] is not an
    array), [fetchMachineData] completes normally: nothing is thrown to the
    caller, the record collection and the summary are what they were before,
    and the warning notice is shown.  The same holds of the session after
    the failed request settled. *)
Theorem failure_keeps_visible_state
    (now : Date) (resp : Response) (s : Session) :
  IngestionFailure resp →
  (∃ s', fetchMachineData_settle now resp s = Normal s' ∧
         machineData (state s') = machineData (state s) ∧
         apiSummaryData (state s') = apiSummaryData (state s) ∧
         toasts s' = toasts s ++ [fetch_warning]) ∧
  (∀ i, machineData (state (step s (Settle i resp now))) =
          machineData (state s) ∧
        apiSummaryData (state (step s (Settle i resp now))) =
          apiSummaryData (state s)).
Proof.
  intros Hfail. destruct (read_response_failure resp Hfail) as [e He].
  assert (Ht : ∀ s0, try_block now resp s0 = Throw e).
  { intros s0. unfold try_block. by rewrite He. }
  split.
  - eexists. split; [by apply settle_thrown|]. done.
  - intros i. cbn [step]. destruct (inflight s !! i); [|done].
    by rewrite (settle_thrown _ _ _ e).
Qed.

(** C9, as amended.  A response that carries a well-formed payload is
    applied when its request settles, whatever happened since the request
    was issued: after another device was selected, or after auto refresh
    was switched, the request is still awaited, and when it settles the
    record collection becomes the normalised payload and the summary its
    aggregate.  Switching auto refresh off only clears the timer: the
    requests awaited, the records and the summary stay as they are, and a
    tick after it issues no request and changes nothing. *)
Theorem late_result_applied
    (s : Session) (ev : Event) (i : nat) (deviceId : string)
    (resp : Response) (now : Date) rows transformedData :
  inflight s !! i = Some deviceId →
  (ev = ToggleAutoRefresh ∨ ∃ value, ev = SelectMachine value) →
  read_response resp = Normal rows →
  transformMachineData now rows = Normal transformedData →
  let s' := step (step s ev) (Settle i resp now) in
  inflight (step s ev) !! i = Some deviceId ∧
  machineData (state s') = transformedData ∧
  apiSummaryData (state s') = Some (buildSummary transformedData) ∧
  (ev = ToggleAutoRefresh → autoRefresh (state s) = true →
   autoRefresh (state (step s ev)) = false ∧
   interval (step s ev) = None ∧
   inflight (step s ev) = inflight s ∧
   machineData (state (step s ev)) = machineData (state s) ∧
   apiSummaryData (state (step s ev)) = apiSummaryData (state s) ∧
   ∀ t, step (step s ev) (Tick t) = step s ev).
Proof.
  intros Hi Hev Hresp Hrows s'.
  assert (Hoff : ev = ToggleAutoRefresh → autoRefresh (state s) = true →
                 autoRefresh (state (step s ev)) = false ∧
                 interval (step s ev) = None ∧
                 inflight (step s ev) = inflight s ∧
                 machineData (state (step s ev)) = machineData (state s) ∧
                 apiSummaryData (state (step s ev)) = apiSummaryData (state s) ∧
                 ∀ t, step (step s ev) (Tick t) = step s ev).
  { intros -> Hon. cbn [step]. unfold effect_autoRefresh. cbn. rewrite Hon. cbn.
    by split_and!. }
  assert (Hi' : inflight (step s ev) !! i = Some deviceId).
  { destruct Hev as [->|[value ->]]; cbn [step].
    - unfold effect_autoRefresh. by destruct (autoRefresh _).
    - case_decide; [done|]. unfold effect_autoRefresh.
      assert (inflight (effect_load (with_state (setSelectedMachine value) s))
                !! i = Some deviceId)
        by (cbn; by apply lookup_app_l_Some).
      by destruct (autoRefresh _). }
  split; [done|]. subst s'.
  assert (Hset : step (step s ev) (Settle i resp now) =
                 finally_block
                   (with_state
                      (λ st, setLastUpdated now
                         (setApiSummaryData (Some (buildSummary transformedData))
                            (setMachineData transformedData st)))
                      (set_inflight (delete i (inflight (step s ev))) (step s ev)))).
  { cbn [step]. rewrite Hi'.
    by rewrite (settle_applied _ _ _ rows transformedData). }
  rewrite Hset. by split_and!.
Qed.
End IngestionFacts.

(** [status_buckets] on the two records of the example, and with a record of
    unknown status before them. *)
Lemma status_buckets_witness :
  status_summary (buildSummary (H := test_host) two_records) =
    {| total_machines := 2; running := 1; idle := 1; stopped := 0;
       maintenance := 0 |} ∧
  status_summary
    (buildSummary (H := test_host) (record_of "D1" "A" :: two_records)) =
    {| total_machines := 3; running := 1; idle := 1; stopped := 0;
       maintenance := 0 |}.
Proof.
  pose proof (status_buckets (H := test_host) two_records)
    as (_ & _ & _ & _ & _ & _ & _ & Hother).
  split; [reflexivity|]. rewrite Hother; [reflexivity|].
  unfold named_status. cbn [record_of status].
  rewrite !elem_of_cons, elem_of_nil. intros [?|[?|[?|[?|[]]]]]; discriminate.
Defined.

(** [filter_by_facets] on the three records of the filter example. *)
Lemma filter_by_facets_witness :
  filteredData (selecting "D1" "all") = [record_of "D1" "A"; record_of "D1" "B"] ∧
  filteredData (selecting "D1" "A") = [record_of "D1" "A"] ∧
  filteredData (selecting "all" "all") = three_records.
Proof.
  split_and!.
  - rewrite (proj1 (filter_by_facets (selecting "D1" "all"))). reflexivity.
  - rewrite (proj1 (filter_by_facets (selecting "D1" "A"))). reflexivity.
  - rewrite (proj1 (filter_by_facets (selecting "all" "all"))). reflexivity.
Defined.

(** [failure_keeps_visible_state] on a loaded session whose next request is
    answered by a failure envelope. *)
Lemma failure_keeps_visible_state_witness :
  IngestionFailure response_failed ∧
  machineData (state (step (step loaded (RefreshNow noon))
                        (Settle 0 response_failed noon))) =
    [transformRow (H := test_host) noon row_D1].
Proof.
  assert (Hfail : IngestionFailure response_failed) by by constructor.
  split; [exact Hfail|].
  destruct (failure_keeps_visible_state (H := test_host) noon response_failed
              (step loaded (RefreshNow noon)) Hfail) as [_ Hstep].
  rewrite (proj1 (Hstep 0)). reflexivity.
Defined.

(** C9 as stated fails.  The request issued at mount is still awaited when
    device ["D2"] is selected; its response is applied all the same.  Likewise
    a request issued by a tick is applied after auto refresh was switched
    off. *)
Lemma late_result_not_discarded :
  let s1 := step (mount (H := test_host) noon) (SelectMachine "D2") in
  let s2 := step s1 (Settle 0 response_D1 noon) in
  let t1 := run (mount (H := test_host) noon)
              [ToggleAutoRefresh; Tick noon; ToggleAutoRefresh] in
  let t2 := step t1 (Settle 1 response_D1 noon) in
  (inflight (mount (H := test_host) noon) = ["all"] ∧
   inflight s1 = ["all"; "D2"] ∧ selectedMachine (state s1) = "D2" ∧
   machineData (state s2) ≠ machineData (state s1) ∧
   apiSummaryData (state s2) ≠ apiSummaryData (state s1)) ∧
  (autoRefresh (state t1) = false ∧ interval t1 = None ∧
   inflight t1 = ["all"; "all"] ∧
   machineData (state t2) ≠ machineData (state t1) ∧
   apiSummaryData (state t2) ≠ apiSummaryData (state t1)).
Proof. repeat split; try reflexivity; vm_compute; discriminate. Qed.

(** [late_result_applied] on the request issued at mount, settled after
    device ["D2"] was selected, and on a request issued by a tick, settled
    after auto refresh was switched off. *)
Lemma late_result_applied_witness :
  let ticked := run (mount (H := test_host) noon) [ToggleAutoRefresh; Tick noon] in
  machineData
    (state (step (step (mount (H := test_host) noon) (SelectMachine "D2"))
              (Settle 0 response_D1 noon))) =
    [transformRow (H := test_host) noon row_D1] ∧
  machineData
    (state (step (step ticked ToggleAutoRefresh) (Settle 1 response_D1 noon))) =
    [transformRow (H := test_host) noon row_D1] ∧
  interval (step ticked ToggleAutoRefresh) = None ∧
  step (step ticked ToggleAutoRefresh) (Tick noon) = step ticked ToggleAutoRefresh.
Proof.
  intros ticked.
  destruct (late_result_applied (H := test_host) (mount noon)
              (SelectMachine "D2") 0 "all" response_D1 noon [Some row_D1]
              [transformRow noon row_D1])
    as (_ & Hselected & _);
    [reflexivity|right; by eexists|reflexivity|reflexivity|].
  destruct (late_result_applied (H := test_host) ticked
              ToggleAutoRefresh 1 "all" response_D1 noon [Some row_D1]
              [transformRow noon row_D1])
    as (_ & Hswitched & _ & Hoff);
    [reflexivity|by left|reflexivity|reflexivity|].
  destruct Hoff as (_ & Hcleared & _ & _ & _ & Htick); [reflexivity|reflexivity|].
  split; [exact Hselected|]. split; [exact Hswitched|].
  split; [exact Hcleared|]. exact (Htick noon).
Defined.

(** * Further properties of the code *)

(** ** Rows that are [null] *)

Lemma rows_objects (rows : list (option RawObject)) :
  None ∉ rows → rows = Some <$> omap id rows.
Proof.
  induction rows as [|[o|] rows IH]; intros Hnone; [done| |].
  - cbn. f_equal. apply IH. intros Hin. apply Hnone. by right.
  - exfalso. apply Hnone. by left.
Qed.

Section NullRows.
Context `{Host}.

Lemma transformMachineData_null now (rows : list (option RawObject)) :
  None ∈ rows → transformMachineData now rows = Throw TypeError.
Proof.
  induction rows as [|[o|] rows IH]; intros Hin.
  - by apply elem_of_nil in Hin.
  - apply elem_of_cons in Hin as [?|Hin]; [done|].
    cbn [transformMachineData transformItem mbind Completion_bind].
    by rewrite (IH Hin).
  - done.
Qed.

(** X1.  [transformMachineData] throws exactly when an element of the array is
    [null], and what it throws is a [TypeError]; otherwise it gives the
    record of every row, one for one and in the order of the rows. *)
Theorem transformMachineData_throws_on_null
    (now : Date) (rows : list (option RawObject)) :
  (None ∈ rows → transformMachineData now rows = Throw TypeError) ∧
  (None ∉ rows →
   transformMachineData now rows = Normal (transformRow now <$> omap id rows) ∧
   length (transformRow now <$> omap id rows) = length rows).
Proof.
  split; [apply transformMachineData_null|]. intros Hnone.
  pose proof (rows_objects rows Hnone) as E.
  remember (omap id rows) as objs eqn:Hobjs. clear Hobjs. subst rows.
  by rewrite transformMachineData_objects, !length_fmap.
Qed.

(** X2.  Whatever the row holds, the record built for it has a truthy deviceId,
    shift, design and status (never [undefined], [null] or [""]), a count,
    efficiency, error1 and error2 that are neither [null] nor [undefined], and
    a string as timestamp. *)
Theorem transformRow_fills_every_field (now : Date) (item : RawObject) :
  let r := transformRow now item in
  (truthy (deviceId r) = true ∧ truthy (shift r) = true ∧
   truthy (design r) = true ∧ truthy (status r) = true) ∧
  (nullish (count r) = false ∧ nullish (efficiency r) = false ∧
   nullish (error1 r) = false ∧ nullish (error2 r) = false) ∧
  is_string (timestamp r) = true.
Proof.
  assert (Hc : ∀ v, nullish (js_coalesce v (num 0)) = false).
  { intros v. unfold js_coalesce. by destruct (nullish v) eqn:E. }
  intros r. subst r.
  cbn [transformRow deviceId shift design status count efficiency error1
       error2 timestamp].
  split_and!; try apply Hc; try (by apply truthy_js_or); done.
Qed.
End NullRows.

(** [transformMachineData_throws_on_null] on an array with a [null] in it and
    on an array of one object. *)
Lemma transformMachineData_throws_on_null_witness :
  transformMachineData (H := test_host) noon [Some row_D1; None] = Throw TypeError ∧
  transformMachineData (H := test_host) noon [Some row_D1] =
    Normal [transformRow (H := test_host) noon row_D1].
Proof.
  split.
  - apply (transformMachineData_throws_on_null (H := test_host)).
    apply elem_of_cons. right. by left.
  - apply (transformMachineData_throws_on_null (H := test_host) noon [Some row_D1]).
    rewrite elem_of_cons, elem_of_nil. by intros [?|[]].
Defined.

(** ** What a request does when it settles *)

Section SettleFacts.
Context `{Host}.

Lemma read_response_accepts resp rows :
  read_response resp = Normal rows ↔
  ∃ success message,
    resp = Responded true (Some (ResultObject success (Some rows) message)) ∧
    truthy success = true.
Proof.
  split.
  - destruct resp as [|[] [[|success [rows'|] message]|]]; cbn; try done.
    destruct (truthy success) eqn:Hs; cbn; [|done].
    intros [= ->]. by exists success, message.
  - intros (success & message & -> & Hs). cbn. by rewrite Hs.
Qed.

Lemma settle_cases (now : Date) (resp : Response) (s : Session) :
  ∃ s', fetchMachineData_settle now resp s = Normal s' ∧
        isLoading (state s') = false ∧
    ((∃ success objs message,
        resp = Responded true
                 (Some (ResultObject success (Some (Some <$> objs)) message)) ∧
        truthy success = true ∧
        machineData (state s') = transformRow now <$> objs ∧
        apiSummaryData (state s') =
          Some (buildSummary (transformRow now <$> objs)) ∧
        lastUpdated (state s') = now ∧
        toasts s' = toasts s ∧ console s' = console s)
     ∨ (machineData (state s') = machineData (state s) ∧
        apiSummaryData (state s') = apiSummaryData (state s) ∧
        lastUpdated (state s') = lastUpdated (state s) ∧
        toasts s' = toasts s ++ [fetch_warning] ∧
        ∃ e, console s' = console s ++ [e])).
Proof.
  destruct (read_response resp) as [rows|e] eqn:Er.
  - destruct (decide (None ∈ rows)) as [Hnull|Hobj].
    + eexists. split.
      { apply (settle_thrown _ _ _ TypeError). unfold try_block. rewrite Er.
        cbn [mbind Completion_bind]. by rewrite transformMachineData_null. }
      split; [done|]. right. split_and!; try done. by eexists.
    + apply read_response_accepts in Er as Hshape.
      destruct Hshape as (success & message & -> & Hs).
      pose proof (rows_objects rows Hobj) as E.
      remember (omap id rows) as objs eqn:Hobjs. clear Hobjs. subst rows.
      eexists. split.
      { eapply settle_applied; [exact Er|apply transformMachineData_objects]. }
      split; [done|]. left. exists success, objs, message. by split_and!.
  - eexists. split.
    { apply (settle_thrown _ _ _ e). unfold try_block. by rewrite Er. }
    split; [done|]. right. split_and!; try done. by eexists.
Qed.

(** X3.  A settling request completes without throwing and leaves [isLoading]
    [false].  If the response is a success whose body parses to a value with
    a truthy [success] and an array [data] of objects, the records become the
    records of those objects, the summary their summary and [lastUpdated] the
    time, and nothing is shown or logged.  If the response is not of that
    form, the three stay what they were, one warning is shown and one error
    logged. *)
Theorem settle_applies_or_warns (now : Date) (resp : Response) (s : Session) :
  ∃ s', fetchMachineData_settle now resp s = Normal s' ∧
        isLoading (state s') = false ∧
    (∀ success objs message,
       resp = Responded true
                (Some (ResultObject success (Some (Some <$> objs)) message)) →
       truthy success = true →
       machineData (state s') = transformRow now <$> objs ∧
       apiSummaryData (state s') =
         Some (buildSummary (transformRow now <$> objs)) ∧
       lastUpdated (state s') = now ∧
       toasts s' = toasts s ∧ console s' = console s) ∧
    ((∀ success objs message,
        truthy success = true →
        resp ≠ Responded true
                 (Some (ResultObject success (Some (Some <$> objs)) message))) →
     machineData (state s') = machineData (state s) ∧
     apiSummaryData (state s') = apiSummaryData (state s) ∧
     lastUpdated (state s') = lastUpdated (state s) ∧
     toasts s' = toasts s ++ [fetch_warning] ∧
     ∃ e, console s' = console s ++ [e]).
Proof.
  destruct (settle_cases now resp s) as (s' & Hs' & Hl & Hcases).
  exists s'. split; [exact Hs'|]. split; [exact Hl|]. split.
  - intros success objs message -> Hsuccess.
    rewrite (settle_applied _ _ _ (Some <$> objs) (transformRow now <$> objs))
      in Hs'.
    + by injection Hs' as <-.
    + cbn. by rewrite Hsuccess.
    + apply transformMachineData_objects.
  - intros Hnot.
    destruct Hcases as [(success & objs & message & -> & Hsuccess & _)|Hwarn];
      [|exact Hwarn].
    by destruct (Hnot success objs message Hsuccess).
Qed.

Lemma settle_applies_or_warns_aux now resp s :
  ∃ s', fetchMachineData_settle now resp s = Normal s' ∧
    ((∃ transformedData,
        machineData (state s') = transformedData ∧
        apiSummaryData (state s') = Some (buildSummary transformedData)) ∨
     (machineData (state s') = machineData (state s) ∧
      apiSummaryData (state s') = apiSummaryData (state s))).
Proof.
  unfold fetchMachineData_settle.
  destruct (try_block now resp s) as [s1|e] eqn:Etry; cbn.
  - eexists. split; [done|]. left. unfold try_block in Etry.
    destruct (read_response resp) as [rows|]; [|done].
    cbn in Etry. destruct (transformMachineData now rows) as [td|]; [|done].
    cbn in Etry. injection Etry as <-. by exists td.
  - eexists. split; [done|]. by right.
Qed.

(** A settling request leaves alone what it is not about: the other awaited
    requests, the armed interval and every selection. *)
Lemma settle_frame now resp s s' :
  fetchMachineData_settle now resp s = Normal s' →
  inflight s' = inflight s ∧ interval s' = interval s ∧
  selectedMachine (state s') = selectedMachine (state s) ∧
  selectedShift (state s') = selectedShift (state s) ∧
  selectedDesign (state s') = selectedDesign (state s) ∧
  selectedStatus (state s') = selectedStatus (state s) ∧
  autoRefresh (state s') = autoRefresh (state s) ∧
  refreshInterval (state s') = refreshInterval (state s) ∧
  isLoading (state s') = false.
Proof.
  unfold fetchMachineData_settle.
  destruct (try_block now resp s) as [s1|e] eqn:Etry; cbn; intros [= <-].
  - unfold try_block in Etry.
    destruct (read_response resp) as [rows|]; [|done].
    cbn in Etry. destruct (transformMachineData now rows); [|done].
    cbn in Etry. by injection Etry as <-.
  - done.
Qed.

(** X4.  When the request awaited at position [i] settles, it alone leaves the
    awaited requests, whatever it answers (the others keep their order),
    [isLoading] becomes [false] even if others are still awaited, and the
    armed interval and the four selections stay.  A position at which no
    request is awaited changes nothing. *)
Theorem settle_removes_one_request
    (s : Session) (i : nat) (resp : Response) (now : Date) :
  let s' := step s (Settle i resp now) in
  (is_Some (inflight s !! i) →
   inflight s' = delete i (inflight s) ∧
   length (inflight s') = pred (length (inflight s)) ∧
   isLoading (state s') = false ∧
   interval s' = interval s ∧
   selectedMachine (state s') = selectedMachine (state s) ∧
   selectedShift (state s') = selectedShift (state s) ∧
   selectedDesign (state s') = selectedDesign (state s) ∧
   selectedStatus (state s') = selectedStatus (state s)) ∧
  (inflight s !! i = None → s' = s).
Proof.
  intros s'. subst s'. cbn [step]. split.
  - intros [d Hd]. rewrite Hd.
    destruct (fetchMachineData_settles now resp
                (set_inflight (delete i (inflight s)) s)) as [s1 Hs1].
    rewrite Hs1. apply settle_frame in Hs1 as (Hi & Ht & Hm & Hs & Hg & Hu & _ & _ & Hl).
    rewrite Hi, Ht, Hm, Hs, Hg, Hu, Hl. cbn [set_inflight inflight interval state].
    split_and!; try done.
    rewrite length_delete by done. lia.
  - by intros ->.
Qed.
End SettleFacts.

(** [settle_removes_one_request] on the session after two requests were
    issued, the first of which fails. *)
Lemma settle_removes_one_request_witness :
  let s := step (mount (H := test_host) noon) (RefreshNow noon) in
  inflight s = ["all"; "all"] ∧
  inflight (step s (Settle 0 response_failed noon)) = ["all"] ∧
  isLoading (state (step s (Settle 0 response_failed noon))) = false ∧
  step s (Settle 2 response_failed noon) = s.
Proof.
  intros s.
  destruct (settle_removes_one_request (H := test_host) s 0 response_failed noon)
    as [Hsome _].
  destruct (settle_removes_one_request (H := test_host) s 2 response_failed noon)
    as [_ Hnone].
  destruct Hsome as (Hi & _ & Hl & _); [by eexists|].
  split; [reflexivity|]. split; [by rewrite Hi|]. split; [exact Hl|].
  by apply Hnone.
Defined.

(** [settle_applies_or_warns] on an envelope of one row and on an envelope
    that reports a failure. *)
Lemma settle_applies_or_warns_witness :
  machineData (state (step (mount (H := test_host) noon)
                        (Settle 0 response_D1 noon))) =
    [transformRow (H := test_host) noon row_D1] ∧
  toasts (step (mount (H := test_host) noon) (Settle 0 response_failed noon)) =
    [fetch_warning].
Proof.
  split.
  - destruct (settle_applies_or_warns (H := test_host) noon response_D1
                (set_inflight [] (mount noon)))
      as (s' & Hs' & _ & Happlied & _).
    destruct (Happlied (JBool true) [row_D1] JUndefined eq_refl eq_refl)
      as (Hm & _).
    cbn [step]. change (inflight (mount noon) !! 0) with (Some "all").
    change (delete 0 (inflight (mount noon))) with (@nil string).
    rewrite Hs'. exact Hm.
  - destruct (settle_applies_or_warns (H := test_host) noon response_failed
                (set_inflight [] (mount noon)))
      as (s' & Hs' & _ & _ & Hwarned).
    destruct Hwarned as (_ & _ & _ & Ht & _).
    { intros success objs message Hsuccess [= <- _ _]. discriminate Hsuccess. }
    cbn [step]. change (inflight (mount noon) !! 0) with (Some "all").
    change (delete 0 (inflight (mount noon))) with (@nil string).
    rewrite Hs'. exact Ht.
Defined.

(** ** What every session reached from the first render keeps *)

Section Invariants.
Context `{Host}.

Lemma run_invariant (P : Session → Prop) (s : Session) (evs : list Event) :
  P s → (∀ s ev, P s → P (step s ev)) → P (run s evs).
Proof.
  intros Hs Hstep. unfold run. revert s Hs.
  induction evs as [|ev evs IH]; intros s Hs; [done|].
  cbn [fold_left]. by apply IH, Hstep.
Qed.

Lemma timer_ok_effect s : timer_ok (effect_autoRefresh s).
Proof.
  unfold timer_ok, effect_autoRefresh.
  by destruct (autoRefresh (state s)) eqn:E; cbn; rewrite E.
Qed.

Lemma timer_ok_step s ev : timer_ok s → timer_ok (step s ev).
Proof.
  intros Hs. destruct ev as [v|v|v|v| |n|t|t|i resp t]; cbn [step];
    try apply timer_ok_effect; try done.
  - case_decide; [done|apply timer_ok_effect].
  - case_decide; [done|apply timer_ok_effect].
  - destruct (interval s) as [[p captured]|] eqn:E; [|done].
    unfold timer_ok in *. cbn. by rewrite <-Hs, E.
  - destruct (inflight s !! i); [|done].
    destruct (fetchMachineData_settles t resp
                (set_inflight (delete i (inflight s)) s)) as [s1 Hs1].
    rewrite Hs1. apply settle_frame in Hs1 as (_ & Ht & Hm & _ & _ & _ & Ha & Hr & _).
    unfold timer_ok in *. by rewrite Ht, Hm, Ha, Hr.
Qed.

Lemma summary_ok_step s ev : summary_ok s → summary_ok (step s ev).
Proof.
  intros Hs. destruct ev as [v|v|v|v| |n|t|t|i resp t]; cbn [step]; try done.
  - case_decide; [done|]. unfold effect_autoRefresh, effect_load.
    by destruct (autoRefresh _).
  - unfold effect_autoRefresh. by destruct (autoRefresh _).
  - case_decide; [done|]. unfold effect_autoRefresh. by destruct (autoRefresh _).
  - by destruct (interval s) as [[p captured]|].
  - destruct (inflight s !! i); [|done].
    destruct (settle_applies_or_warns_aux t resp
                (set_inflight (delete i (inflight s)) s))
      as (s1 & Hs1 & [(td & Hm & Ha)|[Hm Ha]]); rewrite Hs1; unfold summary_ok.
    + right. by rewrite Hm, Ha.
    + by rewrite Hm, Ha.
Qed.

Lemma timer_ok_run now evs : timer_ok (run (mount now) evs).
Proof.
  apply (run_invariant timer_ok); [done|]. intros s ev. apply timer_ok_step.
Qed.

(** X6.  In every session reached from the first render, the summary is the
    summary of the records shown: there is none while no records were ever
    applied, and afterwards it is [buildSummary] of exactly the current
    records.  The design options read from it are then the distinct designs
    of the current records. *)
Theorem summary_follows_records (now : Date) (evs : list Event) :
  let s := run (mount now) evs in
  ((apiSummaryData (state s) = None ∧ machineData (state s) = []) ∨
   apiSummaryData (state s) = Some (buildSummary (machineData (state s)))) ∧
  designs_facet (state s) = distinct (map design (machineData (state s))).
Proof.
  intros s.
  assert (Hok : summary_ok s).
  { apply (run_invariant summary_ok); [by left|].
    intros s0 ev. apply summary_ok_step. }
  split; [exact Hok|]. unfold designs_facet.
  by destruct Hok as [[-> ->]| ->].
Qed.

(** X8.  In every session reached from the first render, a tick of the interval
    issues one request, for the machine selected at that time, and sets
    [lastUpdated]; the records stay until the request settles.  With auto
    refresh off there is no interval, and a tick changes nothing. *)
Theorem tick_fetches_selected (now : Date) (evs : list Event) (t : Date) :
  let s := run (mount now) evs in
  let s' := step s (Tick t) in
  (autoRefresh (state s) = true →
   inflight s' = inflight s ++ [selectedMachine (state s)] ∧
   lastUpdated (state s') = t ∧ isLoading (state s') = true ∧
   machineData (state s') = machineData (state s) ∧
   interval s' = interval s) ∧
  (autoRefresh (state s) = false → s' = s).
Proof.
  intros s s'. pose proof (timer_ok_run now evs) as Ht.
  fold s in Ht. unfold timer_ok in Ht. subst s'. cbn [step].
  split; intros Ha; rewrite Ha in Ht; rewrite Ht; [|done].
  cbn. by rewrite Ht.
Qed.
End Invariants.

(** [tick_fetches_selected] after device ["D2"] was selected and auto refresh
    switched on, and at the first render. *)
Lemma tick_fetches_selected_witness :
  inflight (run (mount (H := test_host) noon)
              [SelectMachine "D2"; ToggleAutoRefresh; Tick noon]) =
    ["all"; "D2"; "D2"] ∧
  step (mount (H := test_host) noon) (Tick noon) = mount (H := test_host) noon.
Proof.
  split.
  - apply (tick_fetches_selected (H := test_host) noon
             [SelectMachine "D2"; ToggleAutoRefresh] noon). reflexivity.
  - apply (tick_fetches_selected (H := test_host) noon [] noon). reflexivity.
Defined.

(** ** More on [buildSummary] *)

Section SumKinds.
Context `{Host}.




End SumKinds.

(** ** [Array.from(new Set(xs))] *)

Lemma distinct_fold_filter (xs seen : list JSValue) :
  fold_left (λ seen x, if decide (x ∈ seen) then seen else seen ++ [x]) xs seen =
  seen ++ filter (λ y, y ∉ seen) (distinct xs).
Proof.
  revert seen. induction xs as [|x xs IH]; intros seen.
  - cbn. by rewrite app_nil_r.
  - assert (D : distinct (x :: xs) = x :: filter (λ y, y ∉ [x]) (distinct xs)).
    { unfold distinct at 1. cbn [fold_left].
      rewrite decide_False by apply not_elem_of_nil. cbn [app]. by rewrite IH. }
    rewrite D. cbn [fold_left]. rewrite filter_cons, list_filter_filter.
    case_decide as Hx.
    + rewrite decide_False by (by intros ?). rewrite IH. f_equal.
      apply list_filter_iff. intros y. rewrite list_elem_of_singleton.
      split; [|tauto]. intros Hy. split; [done|]. by intros ->.
    + rewrite decide_True by done. rewrite IH, <-(assoc_L (++)). cbn [app].
      do 2 f_equal. apply list_filter_iff.
      intros y. rewrite elem_of_app, !list_elem_of_singleton. tauto.
Qed.

Lemma filter_other (x : JSValue) (l : list JSValue) :
  x ∉ l → filter (λ y, y ≠ x) l = l.
Proof.
  induction l as [|z l IH]; intros Hx; [done|].
  rewrite filter_cons, decide_True.
  - f_equal. apply IH. intros Hin. apply Hx. by right.
  - intros ->. apply Hx. by left.
Qed.

(** X13.  [Array.from(new Set(xs))] keeps the first occurrence of every value and
    drops the later ones, in the order of the array; so an array without
    repetition comes back unchanged, and doing it twice is doing it once. *)
Theorem distinct_keeps_first_occurrences (x : JSValue) (xs : list JSValue) :
  distinct (x :: xs) = x :: filter (λ y, y ≠ x) (distinct xs) ∧
  (NoDup xs → distinct xs = xs) ∧
  distinct (distinct xs) = distinct xs.
Proof.
  assert (Hcons : ∀ y ys, distinct (y :: ys) = y :: filter (λ z, z ≠ y) (distinct ys)).
  { intros y ys. unfold distinct at 1. cbn [fold_left].
    rewrite decide_False by apply not_elem_of_nil. cbn [app].
    rewrite distinct_fold_filter. cbn [app]. f_equal. apply list_filter_iff.
    intros z. by rewrite list_elem_of_singleton. }
  assert (Hid : ∀ ys, NoDup ys → distinct ys = ys).
  { induction 1 as [|y ys Hy _ IH]; [done|].
    by rewrite Hcons, IH, filter_other. }
  split_and!; [apply Hcons|apply Hid|apply Hid, NoDup_distinct].
Qed.

(** [distinct_keeps_first_occurrences] on an array without repetition. *)
Lemma distinct_keeps_first_occurrences_witness :
  distinct [JString "A"; JString "B"] = [JString "A"; JString "B"].
Proof.
  pose proof (distinct_keeps_first_occurrences (JString "A")
                [JString "A"; JString "B"]) as (_ & Hid & _).
  apply Hid. apply NoDup_cons. split; [|apply NoDup_singleton].
  rewrite list_elem_of_singleton. discriminate.
Defined.

(** ** The order of the records *)

Lemma status_count_Permutation tag data data' :
  data ≡ₚ data' → status_count tag data = status_count tag data'.
Proof.
  intros Hperm. rewrite !status_count_with_status. unfold with_status.
  by rewrite Hperm.
Qed.

Section OrderFacts.
Context `{Host}.

(** X14.  The status counts do not depend on the order of the records: they
    are the same for a rearranged collection, whatever the records hold, and
    the designs are the same values, possibly in another order. *)
Theorem summary_order_insensitive (data data' : list MachineRecord) :
  data ≡ₚ data' →
  status_summary (buildSummary data') = status_summary (buildSummary data) ∧
  designs (buildSummary data') ≡ₚ designs (buildSummary data).
Proof.
  intros Hperm. cbn [buildSummary status_summary designs]. split.
  - by rewrite (Permutation_length Hperm),
      !(status_count_Permutation _ data data').
  - apply NoDup_Permutation; [apply NoDup_distinct..|].
    intros v. by rewrite !elem_of_distinct, Hperm.
Qed.
End OrderFacts.

(** [summary_order_insensitive] on the two records and their swap. *)
Lemma summary_order_insensitive_witness :
  status_summary (buildSummary (H := test_host) (reverse two_records)) =
    status_summary (buildSummary (H := test_host) two_records).
Proof.
  apply (summary_order_insensitive (H := test_host) two_records
           (reverse two_records) (symmetry (reverse_Permutation _))).
Defined.

(** ** Narrowing the filter *)

Section NarrowFacts.
Context `{Host}.

(** X15.  When a state selects at least what another selects, on the same records,
    its filtered records are the filtered records of the other, filtered
    once more: selecting a value for a facet that was ["all"] only removes
    records, and keeps the others in their order. *)
Theorem filter_narrowing (st st' : State) :
  narrows st st' →
  filteredData st' = filter (selected_by st') (filteredData st) ∧
  sublist (filteredData st') (filteredData st).
Proof.
  intros (Hdata & Hm & Hs & Hd & Hu).
  assert (E : ∀ t, filteredData t = filter (selected_by t) (machineData t))
    by (intros t; apply List_filter_filter, passes_spec).
  assert (Heq : filteredData st' = filter (selected_by st') (filteredData st)).
  { rewrite !E, Hdata, list_filter_filter. apply list_filter_iff.
    intros r. split; [|tauto]. intros Hsel. split; [done|].
    destruct Hsel as (Fm & Fs & Fd & Fu). unfold selected_by, facet in *.
    split_and!; intros Hne.
    - destruct Hm as [?|E']; [done|]. rewrite <-E'. apply Fm. congruence.
    - destruct Hs as [?|E']; [done|]. rewrite <-E'. apply Fs. congruence.
    - destruct Hd as [?|E']; [done|]. rewrite <-E'. apply Fd. congruence.
    - destruct Hu as [?|E']; [done|]. rewrite <-E'. apply Fu. congruence. }
  split; [exact Heq|]. rewrite Heq. apply sublist_filter.
Qed.

End NarrowFacts.

(** [filter_narrowing] from device ["D1"] to device ["D1"] and shift ["A"]. *)
Lemma filter_narrowing_witness :
  filteredData (selecting "D1" "A") =
    filter (selected_by (selecting "D1" "A")) (filteredData (selecting "D1" "all")).
Proof.
  apply (filter_narrowing (selecting "D1" "all") (selecting "D1" "A")).
  unfold narrows. cbn. split_and!; (by left) || (by right) || done.
Defined.

(** ** Status colours *)

Section StylingFacts.
Context `{Strings}.

(** X17.  The three style functions go together.  On a string they never throw:
    the colour is one of green, yellow, red, orange and gray, the border
    colour is that colour at shade 400 and the gradient runs from white to
    that colour at shade 50.  On anything that is not a string all three
    throw a [TypeError]. *)
Theorem status_styles_agree (status : JSValue) :
  match getStatusColor status with
  | Normal colour =>
      is_string status = true ∧
      colour ∈ ["green"; "yellow"; "red"; "orange"; "gray"] ∧
      getStatusBorderColor status = Normal (colour +:+ ".400") ∧
      getStatusGradient status =
        Normal ("linear(to-tr, white, " +:+ colour +:+ ".50)")
  | Throw e =>
      is_string status = false ∧ e = TypeError ∧
      getStatusBorderColor status = Throw TypeError ∧
      getStatusGradient status = Throw TypeError
  end.
Proof.
  destruct status as [| |?|?|s|?]; try done.
  cbn [getStatusColor getStatusBorderColor getStatusGradient is_string].
  repeat case_decide; split_and!; try done;
    rewrite ?elem_of_cons; auto 10.
Qed.
End StylingFacts.

Section CaseFacts.
Context `{Host} `{Strings}.

Lemma filter_by_facets_mem st r :
  r ∈ filteredData st → r ∈ machineData st ∧ selected_by st r.
Proof.
  unfold filteredData. intros Hin.
  apply list_elem_of_In, filter_In in Hin as [Hin Hp].
  split; [by apply list_elem_of_In|by apply passes_spec].
Qed.

(** X18.  The colour follows the status whatever its letter case, the counts and
    the filter do not: a record whose status lowers to a named status
    without being it is painted like that status, yet it is not among the
    records counted under it, and selecting that status filters it out. *)
Theorem colour_ignores_case_count_does_not
    (tag colour s : string) (d : MachineRecord) :
  (tag, colour) ∈ [("running", "green"); ("idle", "yellow");
                   ("stopped", "red"); ("maintenance", "orange")] →
  status d = JString s → toLowerCase s = tag → s ≠ tag →
  getStatusColor (status d) = Normal colour ∧
  (∀ data, d ∉ with_status tag data) ∧
  (∀ st, selectedStatus st = tag → d ∉ filteredData st).
Proof.
  intros Htag Hd Hlow Hne. split_and!.
  - rewrite Hd. cbn [getStatusColor]. rewrite Hlow.
    rewrite !elem_of_cons, elem_of_nil in Htag.
    by destruct Htag as [[= -> ->]|[[= -> ->]|[[= -> ->]|[[= -> ->]|[]]]]].
  - intros data Hin. unfold with_status in Hin.
    apply list_elem_of_filter in Hin as [Hst _]. congruence.
  - intros st Hsel Hin.
    apply filter_by_facets_mem in Hin as [_ (_ & _ & _ & Hu)].
    unfold facet in Hu. rewrite Hsel in Hu.
    assert (Hall : tag ≠ "all").
    { rewrite !elem_of_cons, elem_of_nil in Htag.
      by destruct Htag as [[= -> ->]|[[= -> ->]|[[= -> ->]|[[= -> ->]|[]]]]]. }
    specialize (Hu Hall). congruence.
Qed.
End CaseFacts.

(** [colour_ignores_case_count_does_not] on the status ["Running"]. *)
Lemma colour_ignores_case_count_does_not_witness :
  let d := transformRow (H := test_host) noon row_Running in
  getStatusColor (H := test_strings) (status d) = Normal "green" ∧
  status_count "running" [d] = 0.
Proof.
  intros d.
  destruct (@colour_ignores_case_count_does_not test_host test_strings
              "running" "green" "Running" d)
    as (Hc & Hn & _); [by left|reflexivity|reflexivity|discriminate|].
  split; [exact Hc|]. rewrite status_count_with_status.
  destruct (with_status "running" [d]) as [|x l] eqn:E; [done|].
  exfalso. apply (Hn [d]). unfold with_status in E.
  assert (Hx : x ∈ filter (λ d0, status d0 = JString "running") [d])
    by (rewrite E; by left).
  apply list_elem_of_filter in Hx as [Hx Hin].
  apply list_elem_of_singleton in Hin as ->. unfold with_status.
  apply list_elem_of_filter. split; [done|by left].
Defined.

(** ** The PLC table *)

Lemma plc_dm_fallback (item : Plc.Json) (k : string) :
  Plc.get (if Plc.truthy (Plc.get (Some item) "dm_words")
           then Plc.get (Some item) "dm_words"
           else Some (Plc.JsObj ∅)) k =
  Plc.get (Plc.get (Some item) "dm_words") k.
Proof.
  destruct (Plc.get (Some item) "dm_words") as [[|b|n|s|l|m]|]; cbn; try done.
  - by destruct b.
  - by destruct n.
  - by case_bool_decide.
Qed.

Lemma plc_row_lookup (item : Plc.Json) (col : string) :
  Plc.map_item item !! col =
    if decide (col = "device_id") then Some (Plc.get (Some item) "device_id")
    else if decide (col = "timestamp") then Some (Plc.get (Some item) "timestamp")
    else if decide (col ∈ Plc.dm_keys)
         then Some (Plc.get (Plc.get (Some item) "dm_words") col)
         else None.
Proof.
  destruct (decide (col = "device_id")) as [->|Hd]; [reflexivity|].
  destruct (decide (col = "timestamp")) as [->|Ht]; [reflexivity|].
  destruct (decide (col ∈ Plc.dm_keys)) as [Hdm|Hdm].
  - unfold Plc.dm_keys in Hdm. rewrite !elem_of_cons, elem_of_nil in Hdm.
    rewrite <-plc_dm_fallback.
    by destruct Hdm as [->|[->|[->|[->|[->|[->|[->|[->|[->|[->|[]]]]]]]]]]].
  - unfold Plc.map_item, Plc.dm_keys in *. cbn [fold_left].
    rewrite !lookup_insert, lookup_empty.
    repeat (case_decide;
            [exfalso; subst col;
             first [by apply Hd|by apply Ht
                   |apply Hdm; rewrite !elem_of_cons; auto 20]|]).
    done.
Qed.

(** X21.  The row built for an element has the twelve columns and no other
    property, whatever the element is: [device_id] and [timestamp] are those
    of the element, each of the ten words is the one of its [dm_words], and a
    value that is missing, because the element or its [dm_words] is no
    object or lacks the name, is [undefined].  What else the element holds
    is dropped. *)
Theorem plc_row_has_the_columns (item : Plc.Json) (col : string) :
  Plc.map_item item !! col =
    if decide (col = "device_id") then Some (Plc.get (Some item) "device_id")
    else if decide (col = "timestamp") then Some (Plc.get (Some item) "timestamp")
    else if decide (col ∈ Plc.dm_keys)
         then Some (Plc.get (Plc.get (Some item) "dm_words") col)
         else None.
Proof.
  apply plc_row_lookup.
Qed.

Lemma plc_cell_undefined (item : Plc.Json) (col : string) :
  Plc.map_item item !! col = Some None → Plc.cell (Plc.map_item item) col = Plc.Dash.
Proof. unfold Plc.cell. by intros ->. Qed.

Lemma plc_view_error (st : Plc.State) :
  Plc.loading st = false → Plc.error st ≠ "" →
  Plc.view st = Plc.ErrorBox (Plc.error st).
Proof.
  intros Hl He. unfold Plc.view. rewrite Hl. by rewrite bool_decide_eq_true_2.
Qed.

Lemma plc_view_rows (st : Plc.State) :
  Plc.loading st = false → Plc.error st = "" →
  Plc.view st =
    match Plc.rows st with
    | [] => Plc.NoData
    | _ => Plc.Table (map (λ row, map (Plc.cell row) Plc.columns) (Plc.rows st))
    end.
Proof.
  intros Hl He. unfold Plc.view. rewrite Hl, He.
  by rewrite bool_decide_eq_false_2 by (by intros ?).
Qed.

(** X22.  A body that is an object without an array [data] stands for one
    row.  If it has none of [device_id], [timestamp] and [dm_words] (an error
    report of the server, say), that row is twelve dashes, whatever the
    status of the response; the page shows it as a table, without an error,
    when no error is set as the response arrives. *)
Theorem plc_error_body_shown_as_row
    (ok : bool) (fields : gmap string Plc.Json) (st : Plc.State) :
  (∀ items, fields !! "data" ≠ Some (Plc.JsArr items)) →
  fields !! "device_id" = None → fields !! "timestamp" = None →
  fields !! "dm_words" = None →
  let st' := Plc.fetchData_settle (Plc.Responded ok (Some (Plc.JsObj fields))) st in
  length (Plc.rows st') = 1 ∧
  map (λ row, map (Plc.cell row) Plc.columns) (Plc.rows st') =
    [replicate 12 Plc.Dash] ∧
  (Plc.error st = "" → Plc.view st' = Plc.Table [replicate 12 Plc.Dash]).
Proof.
  intros Hdata Hd Ht Hw st'.
  assert (Hin : Plc.incoming (Plc.JsObj fields) = [Plc.JsObj fields]).
  { cbn. destruct (fields !! "data") as [[| | | |items|]|] eqn:E; try done.
    by destruct (Hdata items). }
  assert (Hrows : Plc.rows st' = [Plc.map_item (Plc.JsObj fields)]).
  { change (Plc.rows st') with (Plc.map_item <$> Plc.incoming (Plc.JsObj fields)).
    by rewrite Hin. }
  assert (Hcells : map (λ row, map (Plc.cell row) Plc.columns) (Plc.rows st') =
                   [replicate 12 Plc.Dash]).
  { rewrite Hrows. cbn [map]. f_equal.
    unfold Plc.columns, Plc.dm_keys. cbn [app map replicate].
    repeat (f_equal; [apply plc_cell_undefined; rewrite plc_row_lookup;
                      cbn; by rewrite ?Hd, ?Ht, ?Hw|]).
    f_equal. apply plc_cell_undefined. rewrite plc_row_lookup.
    cbn. by rewrite Hw. }
  split; [by rewrite Hrows|]. split; [exact Hcells|].
  intros He. rewrite plc_view_rows, Hcells; [by rewrite Hrows|done|done].
Qed.

(** X23.  A call that begins clears the error; a call that settles puts
    [loading] off, also while another is awaited.  If the request failed,
    the rows stay what they were, the error becomes a non-empty message and
    the page shows it in place of the rows.  If a response came, of whatever
    status, the rows become those of the body and the error stays what it is:
    an error set meanwhile by another call that failed keeps the new rows
    hidden behind the error box; without one the page shows the table, or
    "no data" when there is no row. *)
Theorem plc_fetch_outcome (resp : Plc.Response) (st : Plc.State) :
  let st' := Plc.fetchData_settle resp st in
  (Plc.error (Plc.fetchData_begin st) = "" ∧
   Plc.rows (Plc.fetchData_begin st) = Plc.rows st ∧
   Plc.view (Plc.fetchData_begin st) = Plc.Spinner) ∧
  Plc.loading st' = false ∧
  match resp with
  | Plc.Rejected message =>
      Plc.rows st' = Plc.rows st ∧ Plc.error st' ≠ "" ∧
      Plc.view st' = Plc.ErrorBox (Plc.error st') ∧
      (message ≠ "" → Plc.error st' = message)
  | Plc.Responded ok body =>
      Plc.error st' = Plc.error st ∧
      Plc.rows st' = Plc.map_item <$> Plc.incoming (default Plc.JsNull body) ∧
      (Plc.error st ≠ "" → Plc.view st' = Plc.ErrorBox (Plc.error st)) ∧
      (Plc.error st = "" → Plc.rows st' = [] → Plc.view st' = Plc.NoData) ∧
      (Plc.error st = "" → Plc.rows st' ≠ [] →
       ∃ cells, Plc.view st' = Plc.Table cells ∧
                length cells = length (Plc.rows st') ∧
                Forall (λ row, length row = 12) cells)
  end.
Proof.
  intros st'. subst st'. split; [done|]. split; [by destruct resp|].
  destruct resp as [message|ok body].
  - assert (He : Plc.error (Plc.fetchData_settle (Plc.Rejected message) st) ≠ "").
    { cbn. by case_bool_decide. }
    split_and!; [done|exact He|by apply plc_view_error|].
    intros Hm. cbn. by rewrite bool_decide_eq_true_2.
  - split_and!; [done|done|..].
    + intros He. by rewrite plc_view_error.
    + intros He Hrows. rewrite plc_view_rows by done. by rewrite Hrows.
    + intros He Hrows. rewrite plc_view_rows by done.
      destruct (Plc.rows (Plc.fetchData_settle (Plc.Responded ok body) st))
        as [|row rows] eqn:E; [done|].
      eexists. split; [done|]. split; [by rewrite length_map|].
      apply Forall_forall. intros cells Hin.
      apply list_elem_of_fmap in Hin as (r & -> & _). reflexivity.
Qed.

(** X24.  The rows may come bare or in an envelope: a body that is an object
    whose [data] is an array gives what that array alone gives, one row for
    each of its elements.  A body that does not parse, or parses to [null] or
    to a primitive, gives no row, and the page says "no data" when no error
    is set as the response arrives. *)
Theorem plc_body_shapes (ok ok' : bool) (st : Plc.State) :
  (∀ fields items,
     fields !! "data" = Some (Plc.JsArr items) →
     Plc.fetchData_settle (Plc.Responded ok (Some (Plc.JsObj fields))) st =
       Plc.fetchData_settle (Plc.Responded ok' (Some (Plc.JsArr items))) st ∧
     length (Plc.rows (Plc.fetchData_settle
                         (Plc.Responded ok (Some (Plc.JsObj fields))) st)) =
       length items) ∧
  (∀ body,
     match body with
     | Some (Plc.JsArr _) | Some (Plc.JsObj _) => False
     | _ => True
     end →
     Plc.rows (Plc.fetchData_settle (Plc.Responded ok body) st) = [] ∧
     (Plc.error st = "" →
      Plc.view (Plc.fetchData_settle (Plc.Responded ok body) st) = Plc.NoData)).
Proof.
  split.
  - intros fields items Hdata. cbn. rewrite Hdata. by rewrite length_map.
  - intros body Hbody.
    assert (Hrows : Plc.rows (Plc.fetchData_settle (Plc.Responded ok body) st) = [])
      by (by destruct body as [[| | | | |]|]).
    split; [exact Hrows|]. intros He.
    rewrite plc_view_rows; [by rewrite Hrows|done|done].
Qed.

(** [plc_error_body_shown_as_row] on an error report that answers the call of
    the first render. *)
Lemma plc_error_body_shown_as_row_witness :
  Plc.view
    (Plc.run Plc.initial
       [Plc.Refresh;
        Plc.Settle
          (Plc.Responded false
             (Some (Plc.JsObj {[ "message" := Plc.JsStr "Unauthorized" ]})))]) =
    Plc.Table [replicate 12 Plc.Dash].
Proof.
  apply (plc_error_body_shown_as_row false
           {[ "message" := Plc.JsStr "Unauthorized" ]}
           (Plc.fetchData_begin Plc.initial)); try reflexivity.
  intros items. vm_compute. discriminate.
Defined.

(** [plc_body_shapes] on an envelope of one element and on a body that does
    not parse. *)
Lemma plc_body_shapes_witness :
  let st := Plc.fetchData_begin Plc.initial in
  length (Plc.rows (Plc.fetchData_settle
    (Plc.Responded true
       (Some (Plc.JsObj {[ "data" := Plc.JsArr [Plc.JsNull] ]}))) st)) = 1 ∧
  Plc.view (Plc.fetchData_settle (Plc.Responded true None) st) = Plc.NoData.
Proof.
  intros st. destruct (plc_body_shapes true true st) as [Henv Hnone]. split.
  - by apply (Henv {[ "data" := Plc.JsArr [Plc.JsNull] ]} [Plc.JsNull]).
  - by apply (Hnone None).
Defined.

(** [plc_fetch_outcome] on two calls that overlap: the first fails after the
    second began, and the response to the second stays behind the error. *)
Lemma plc_fetch_outcome_witness :
  let st := Plc.run Plc.initial
              [Plc.Refresh; Plc.Refresh; Plc.Settle (Plc.Rejected "Failed to fetch")] in
  Plc.error st = "Failed to fetch" ∧
  Plc.view (Plc.step st (Plc.Settle (Plc.Responded true (Some (Plc.JsArr [Plc.JsNull]))))) =
    Plc.ErrorBox "Failed to fetch" ∧
  length (Plc.rows (Plc.step st (Plc.Settle
            (Plc.Responded true (Some (Plc.JsArr [Plc.JsNull])))))) = 1.
Proof.
  intros st. split; [|split].
  - destruct (plc_fetch_outcome (Plc.Rejected "Failed to fetch")
                (Plc.run Plc.initial [Plc.Refresh; Plc.Refresh]))
      as (_ & _ & _ & _ & _ & Hm).
    by apply Hm.
  - destruct (plc_fetch_outcome
                (Plc.Responded true (Some (Plc.JsArr [Plc.JsNull]))) st)
      as (_ & _ & _ & _ & Herr & _).
    by apply Herr.
  - destruct (plc_fetch_outcome
                (Plc.Responded true (Some (Plc.JsArr [Plc.JsNull]))) st)
      as (_ & _ & _ & Hrows & _).
    cbn [Plc.step]. by rewrite Hrows.
Defined.

(** ** Facets and requests *)

Section FacetEvents.
Context `{Host}.

(** X19.  Selecting shifts, designs and statuses, however often, is local: no
    request is issued, the interval is not re-armed, and the records, the
    summary and the selected machine stay; only what is filtered changes. *)
Theorem facet_selection_is_local (s : Session) (evs : list Event) :
  Forall (λ ev, selects_facet ev = true) evs →
  inflight (run s evs) = inflight s ∧
  interval (run s evs) = interval s ∧
  toasts (run s evs) = toasts s ∧
  machineData (state (run s evs)) = machineData (state s) ∧
  apiSummaryData (state (run s evs)) = apiSummaryData (state s) ∧
  selectedMachine (state (run s evs)) = selectedMachine (state s) ∧
  isLoading (state (run s evs)) = isLoading (state s) ∧
  shifts (state (run s evs)) = shifts (state s) ∧
  availableDevices (state (run s evs)) = availableDevices (state s).
Proof.
  intros Hall. unfold run. revert s.
  induction Hall as [|ev evs Hev _ IH]; intros s; [done|].
  cbn [fold_left].
  destruct (IH (step s ev)) as (-> & -> & -> & Hm & -> & -> & -> & Hs & Ha).
  unfold shifts, availableDevices in *. rewrite Hm.
  by destruct ev.
Qed.

(** X20.  A record whose deviceId, shift, design or status is not a string is
    never shown once that facet has a selection other than ["all"]: a
    selection is a string, and [!==] does not convert. *)
Theorem non_string_field_never_selected (st : State) (r : MachineRecord) :
  (is_string (deviceId r) = false ∧ selectedMachine st ≠ "all") ∨
  (is_string (shift r) = false ∧ selectedShift st ≠ "all") ∨
  (is_string (design r) = false ∧ selectedDesign st ≠ "all") ∨
  (is_string (status r) = false ∧ selectedStatus st ≠ "all") →
  r ∉ filteredData st.
Proof.
  intros Hcase Hin. unfold filteredData in Hin.
  apply list_elem_of_In, filter_In in Hin as [_ Hp].
  apply passes_spec in Hp as (Fm & Fs & Fd & Fu). unfold facet in *.
  destruct Hcase as [[Hv Hsel]|[[Hv Hsel]|[[Hv Hsel]|[Hv Hsel]]]].
  - rewrite (Fm Hsel) in Hv. done.
  - rewrite (Fs Hsel) in Hv. done.
  - rewrite (Fd Hsel) in Hv. done.
  - rewrite (Fu Hsel) in Hv. done.
Qed.
End FacetEvents.

(** [facet_selection_is_local] on the loaded session. *)
Lemma facet_selection_is_local_witness :
  inflight (run loaded [SelectShift "A"; SelectStatus "running"]) = [] ∧
  machineData (state (run loaded [SelectShift "A"; SelectStatus "running"])) =
    machineData (state loaded).
Proof.
  destruct (facet_selection_is_local (H := test_host) loaded
              [SelectShift "A"; SelectStatus "running"])
    as (Hi & _ & _ & Hm & _); [by repeat constructor|].
  by rewrite Hi, Hm.
Defined.

(** [non_string_field_never_selected] on the two records of the example,
    which have no shift. *)
Lemma non_string_field_never_selected_witness :
  filteredData {| machineData := two_records; isLoading := false;
                  selectedMachine := "all"; selectedShift := "A";
                  selectedDesign := "all"; selectedStatus := "all";
                  lastUpdated := noon; autoRefresh := false;
                  refreshInterval := 30; apiSummaryData := None |} = [].
Proof.
  apply elem_of_nil_inv. intros r Hr.
  eapply (non_string_field_never_selected (H := test_host)); [|exact Hr].
  right. left. split; [|discriminate].
  unfold filteredData in Hr. apply list_elem_of_In, filter_In in Hr as [Hr _].
  cbn in Hr. by destruct Hr as [<-|[<-|[]]].
Defined.
